(** * YoursKanban board: the client-side state of [script.js]

    A shallow embedding of the board state ([state]), of the functions of
    [script.js] that read or change it, and of the JavaScript built-ins
    those functions rely on, followed by the properties of the board that
    the specification states.

    Conventions of the embedding.
    - A JavaScript string is a [string], the bytes of its UTF-8 form.
      [String.prototype.toLowerCase] and [String.prototype.trim] depend on
      the Unicode tables: where [script.js] applies them to a text of the
      user (the search and the priority filter of [renderBoard], the fields
      of the task form) the built-in is a parameter of the function, as
      [Date.parse] is.  [Js.toLowerCase] and [Js.trim] are the two
      built-ins on texts of ASCII characters; the key listeners and
      [getFileIcon] only compare a lower-cased text with ASCII texts, and
      use [Js.toLowerCase].
    - A JavaScript number is a [Num]: an integer or [NaN].
    - [Date.now()] is an input: every function that reads the clock takes
      one argument per call of [Date.now()], in the order of the calls.
      [Date.parse] is a parameter of the functions that build a [Date]
      from a string.
    - [state.tasks] is a [list Task].  A task object that [find] returns and
      the code then assigns to is the first element of the list with that
      id, replaced in place.  No task object is reachable twice from the
      board: [deleteTask] keeps a copy of the task it removes,
      [duplicateTask] makes a deep copy, and [clearBoard] empties the list
      it has copied; the undo of a toast runs once, as the toast is hidden
      by the click.
    - The DOM is not modelled; what the code reads from it (form fields,
      the drop zone of a drag, the dropped files) is an argument, and so is
      the id that the delete confirmation passes to [deleteTask].
    - Left out of the board state: the write to the remote collection
      ([saveTaskToFirebase]) and the inline editing of a title, which
      assigns [task.title] only.  The markup of a card, the theme and the
      dialogs of the page are in the modules [Card], [ThemeManager] and
      [Page]. *)

From Stdlib Require Import ZArith List String Ascii Bool Lia Permutation Sorted.
From Stdlib Require Import DecimalString DecimalPos DecimalZ.
Import ListNotations.

Open Scope string_scope.
Open Scope Z_scope.

(** ** JavaScript built-ins used by the board *)

Module Js.

(** A number: a (mathematical) integer or NaN. *)
Inductive Num : Type :=
| Finite (z : Z)
| NaN.

(** [a - b] on numbers. *)
Definition sub (a b : Num) : Num :=
  match a, b with
  | Finite x, Finite y => Finite (x - y)
  | _, _ => NaN
  end.

(** [n.toString()] for an integer. *)
Definition Number_toString (n : Z) : string :=
  NilZero.string_of_int (Z.to_int n).

(** [TimeClip]: the time value of [new Date(ms)]. *)
Definition TimeClip (ms : Z) : Num :=
  if Z.abs ms <=? 8640000000000000 then Finite ms else NaN.

(** A text of ASCII characters. *)
Definition is_ascii_char (c : ascii) : bool := (nat_of_ascii c <? 128)%nat.

Fixpoint is_ascii (s : string) : bool :=
  match s with
  | EmptyString => true
  | String c s' => is_ascii_char c && is_ascii s'
  end.

(** [c.toLowerCase()] on one ASCII character. *)
Definition lower_ascii (c : ascii) : ascii :=
  let n := nat_of_ascii c in
  if ((65 <=? n) && (n <=? 90))%nat then ascii_of_nat (n + 32) else c.

(** [s.toLowerCase()] for a text [s] of ASCII characters: the letters A to
    Z become a to z.  The key listeners of the page use it as it is: they
    compare the result with the letter t or n, and a key lowers to that
    letter exactly when it is the letter in one of its two cases. *)
Fixpoint toLowerCase (s : string) : string :=
  match s with
  | EmptyString => EmptyString
  | String c s' => String (lower_ascii c) (toLowerCase s')
  end.

(** [s.includes(q)]: [q] occurs in [s] as a contiguous run. *)
Fixpoint includes (s q : string) : bool :=
  if prefix q s then true
  else match s with
       | EmptyString => false
       | String _ s' => includes s' q
       end.

(** What is asked of a lower-casing function that stands for the built-in:
    on a text of ASCII characters it is [toLowerCase] above. *)
Definition folds_ascii (lower : string -> string) : Prop :=
  forall s : string, is_ascii s = true -> lower s = toLowerCase s.

(** The white space of ASCII: tab, line feed, vertical tab, form feed,
    carriage return and space.  [trim] removes these, and the white space
    and line terminators beyond ASCII. *)
Definition is_white (c : ascii) : bool :=
  match nat_of_ascii c with
  | 9%nat | 10%nat | 11%nat | 12%nat | 13%nat | 32%nat => true
  | _ => false
  end.

Fixpoint trimStart (s : string) : string :=
  match s with
  | EmptyString => EmptyString
  | String c s' => if is_white c then trimStart s' else s
  end.

Fixpoint trimEnd (s : string) : string :=
  match s with
  | EmptyString => EmptyString
  | String c s' =>
      match trimEnd s' with
      | EmptyString => if is_white c then EmptyString else String c EmptyString
      | r => String c r
      end
  end.

(** [s.trim()] for a text [s] of ASCII characters. *)
Definition trim (s : string) : string := trimEnd (trimStart s).

(** [s.split('.')[0]]: the part of [s] before its first dot. *)
Fixpoint before_dot (s : string) : string :=
  match s with
  | EmptyString => EmptyString
  | String c s' => if Ascii.eqb c "." then EmptyString else String c (before_dot s')
  end.

(** [s.startsWith(p)]. *)
Definition startsWith (s p : string) : bool := prefix p s.

(** Truthiness of a string: every string but the empty one. *)
Definition truthy_string (s : string) : bool := negb (String.eqb s "").

(** [a || b] on strings. *)
Definition or_string (a b : string) : string := if truthy_string a then a else b.

(** [a || b] where [a] may be absent ([undefined]). *)
Definition or_default (a : option string) (b : string) : string :=
  match a with
  | Some s => or_string s b
  | None => b
  end.

Section Sort.

Variable T : Type.

(** What a comparison function of the board returns: a number, or an array
    of plain objects. *)
Inductive Value : Type :=
| VNumber (n : Num)
| VArray (elems : list T).

(** [ToNumber]: an array is first turned into a string, its elements joined
    with commas.  A plain object prints as [[object Object]], so an array with
    an element is not a numeral and gives NaN; the empty array prints as the
    empty string and gives 0. *)
Definition ToNumber (v : Value) : Num :=
  match v with
  | VNumber n => n
  | VArray [] => Finite 0
  | VArray (_ :: _) => NaN
  end.

Variable comparefn : T -> T -> Value.

(** [SortCompare] of [Array.prototype.sort]: the result of the comparison
    function goes through [ToNumber], and NaN counts as 0. *)
Definition SortCompare (x y : T) : Z :=
  match ToNumber (comparefn x y) with
  | Finite v => v
  | NaN => 0
  end.

(** [Array.prototype.sort] is stable: elements that compare as 0 keep their
    order.  For a consistent comparison function the result is the one of
    any stable sort; insertion from the right is the one used here.  [x]
    comes from before every element of [sorted] in the array, so it only
    moves behind the elements it is greater than. *)
Fixpoint insert (x : T) (sorted : list T) : list T :=
  match sorted with
  | [] => [x]
  | y :: rest => if 0 <? SortCompare x y then y :: insert x rest else x :: sorted
  end.

Definition Array_sort (a : list T) : list T := fold_right insert [] a.

End Sort.

Arguments VNumber {T} n.
Arguments VArray {T} elems.
Arguments ToNumber {T} v.
Arguments SortCompare {T} comparefn x y.
Arguments insert {T} comparefn x sorted.
Arguments Array_sort {T} comparefn a.

End Js.

(** ** The board: data model and the functions of [script.js] *)

Module Board.

Import Js.

(** *** Data model *)

(** An item of [task.subtasks]. *)
Record Subtask : Type := mkSubtask {
  text : string;
  completed : bool
}.

(** An item of [task.files]. *)
Record FileInfo : Type := mkFileInfo {
  file_name : string;
  file_size : Z;
  file_type : string;
  file_lastModified : Z;
  file_url : string
}.

(** [task.dueDate]: [null] (or absent), the number of milliseconds that
    [handleFormSubmit] stores, or the string that the remote collection
    holds. *)
Inductive DueDate : Type :=
| NoDate
| DateMs (ms : Z)
| DateStr (s : string).

(** A task object.  [pinned] absent counts as [false] and [subtasks]
    absent as the empty array, which is how every reader of these fields
    treats them; [updatedAt] is absent until a form or a duplication sets
    it. *)
Record Task : Type := mkTask {
  id : string;
  title : string;
  description : string;
  status : string;
  priority : string;
  dueDate : DueDate;
  pinned : bool;
  subtasks : list Subtask;
  files : list FileInfo;
  createdAt : Num;
  updatedAt : option Z
}.

(** [{ ...task, deletedAt: Date.now() }]: the value of
    [state.lastDeletedTask]. *)
Record DeletedTask : Type := mkDeleted {
  snapshot : Task;
  deletedAt : Z
}.

(** The undo action of a toast: the closure given to [showToast] by
    [deleteTask], which reads [state.lastDeletedTask] when it runs, or the
    one given by [clearBoard], which holds [previousTasks]. *)
Inductive UndoAction : Type :=
| UndoDelete
| UndoClear (previousTasks : list Task).

(** [state], and the toasts on screen that carry an undo button, oldest
    first.  Toasts without an undo action and [state.theme] have no effect
    on the board and are left out. *)
Record State : Type := mkState {
  tasks : list Task;
  filterQuery : string;
  priorityFilter : string;
  sortOrder : string;
  lastDeletedTask : option DeletedTask;
  toasts : list UndoAction
}.

(** The initial value of [state]; no toast is shown. *)
Definition initial : State :=
  mkState [] "" "all" "none" None [].

(** [COLUMNS], by id. *)
Inductive Column : Type := Todo | Progress | Done.

Definition col_id (c : Column) : string :=
  match c with
  | Todo => "todo"
  | Progress => "progress"
  | Done => "done"
  end.

Definition COLUMNS : list Column := [Todo; Progress; Done].

(** *** Field assignments *)

Definition set_tasks (st : State) (l : list Task) : State :=
  mkState l (filterQuery st) (priorityFilter st) (sortOrder st)
          (lastDeletedTask st) (toasts st).

Definition set_filterQuery (st : State) (q : string) : State :=
  mkState (tasks st) q (priorityFilter st) (sortOrder st)
          (lastDeletedTask st) (toasts st).

Definition set_priorityFilter (st : State) (p : string) : State :=
  mkState (tasks st) (filterQuery st) p (sortOrder st)
          (lastDeletedTask st) (toasts st).

Definition set_sortOrder (st : State) (o : string) : State :=
  mkState (tasks st) (filterQuery st) (priorityFilter st) o
          (lastDeletedTask st) (toasts st).

Definition set_lastDeletedTask (st : State) (d : option DeletedTask) : State :=
  mkState (tasks st) (filterQuery st) (priorityFilter st) (sortOrder st)
          d (toasts st).

Definition set_toasts (st : State) (ts : list UndoAction) : State :=
  mkState (tasks st) (filterQuery st) (priorityFilter st) (sortOrder st)
          (lastDeletedTask st) ts.

(** [showToast(message, type, duration, undoAction)] with an undo action. *)
Definition showToast (st : State) (a : UndoAction) : State :=
  set_toasts st (toasts st ++ [a]).

Definition set_status (t : Task) (s : string) : Task :=
  mkTask (id t) (title t) (description t) s (priority t) (dueDate t)
         (pinned t) (subtasks t) (files t) (createdAt t) (updatedAt t).

Definition set_pinned (t : Task) (p : bool) : Task :=
  mkTask (id t) (title t) (description t) (status t) (priority t) (dueDate t)
         p (subtasks t) (files t) (createdAt t) (updatedAt t).

Definition set_files (t : Task) (fs : list FileInfo) : Task :=
  mkTask (id t) (title t) (description t) (status t) (priority t) (dueDate t)
         (pinned t) (subtasks t) fs (createdAt t) (updatedAt t).

(** [state.tasks.find(t => t.id === i)]. *)
Definition find_task (i : string) (l : list Task) : option Task :=
  find (fun t => String.eqb (id t) i) l.

(** Assignment to the object that [find_task] returns: the first task with
    id [i] becomes [f] of itself. *)
Fixpoint assign (i : string) (f : Task -> Task) (l : list Task) : list Task :=
  match l with
  | [] => []
  | t :: l' => if String.eqb (id t) i then f t :: l' else t :: assign i f l'
  end.

(** *** Rendering: filter and order of a column *)

Section Render.

(** [Date.parse]: the time value of [new Date(s)] for a string. *)
Variable Date_parse : string -> Num.

(** [String.prototype.toLowerCase]: [toLowerCase s] is [s.toLowerCase()]. *)
Variable toLowerCase : string -> string.

(** Truthiness of [task.dueDate]. *)
Definition has_dueDate (t : Task) : bool :=
  match dueDate t with
  | NoDate => false
  | DateMs ms => negb (ms =? 0)
  | DateStr s => truthy_string s
  end.

(** The time value of [new Date(task.dueDate)]; [new Date(null)] is the
    epoch. *)
Definition new_Date (d : DueDate) : Num :=
  match d with
  | NoDate => TimeClip 0
  | DateMs ms => TimeClip ms
  | DateStr s => Date_parse s
  end.

(** The comparison function inside [sortTasksByDueDate]. *)
Definition compareDueDate (order : string) (a b : Task) : Value Task :=
  let dateA := if has_dueDate a then new_Date (dueDate a) else TimeClip 0 in
  let dateB := if has_dueDate b then new_Date (dueDate b) else TimeClip 0 in
  if negb (has_dueDate a) && negb (has_dueDate b) then VNumber (Finite 0)
  else if negb (has_dueDate a) then
    VNumber (Finite (if String.eqb order "asc" then 1 else -1))
  else if negb (has_dueDate b) then
    VNumber (Finite (if String.eqb order "asc" then -1 else 1))
  else VNumber (if String.eqb order "asc" then sub dateA dateB else sub dateB dateA).

(** [sortTasksByDueDate(tasks, order)]: a sorted copy of [tasks]. *)
Definition sortTasksByDueDate (l : list Task) (order : string) : list Task :=
  if String.eqb order "none" then l
  else Array_sort (compareDueDate order) l.

(** [matchesSearch] in [renderBoard]. *)
Definition matchesSearch (st : State) (task : Task) : bool :=
  String.eqb (filterQuery st) ""
  || includes (toLowerCase (title task)) (toLowerCase (filterQuery st))
  || (truthy_string (description task)
      && includes (toLowerCase (description task)) (toLowerCase (filterQuery st))).

(** [matchesPriority] in [renderBoard]. *)
Definition matchesPriority (st : State) (task : Task) : bool :=
  String.eqb (priorityFilter st) "all"
  || (truthy_string (priority task)
      && String.eqb (toLowerCase (priority task)) (priorityFilter st)).

(** The predicate given to [state.tasks.filter] for column [col]. *)
Definition columnFilter (st : State) (col : Column) (task : Task) : bool :=
  if negb (String.eqb (status task) (col_id col)) then false
  else matchesSearch st task && matchesPriority st task.

(** The comparison function given to [columnTasks.sort]: when a sort order
    is set and the two tasks agree on [pinned], it returns what
    [sortTasksByDueDate] returns, an array. *)
Definition compareColumn (st : State) (a b : Task) : Value Task :=
  if pinned a && negb (pinned b) then VNumber (Finite (-1))
  else if negb (pinned a) && pinned b then VNumber (Finite 1)
  else if negb (String.eqb (sortOrder st) "none") then
    VArray (sortTasksByDueDate [a; b] (sortOrder st))
  else VNumber (Finite 0).

(** [columnTasks] of [renderBoard] for column [col], as the cards are
    appended to the column's list. *)
Definition columnTasks (st : State) (col : Column) : list Task :=
  Array_sort (compareColumn st) (filter (columnFilter st col) (tasks st)).

(** What [renderBoard] displays: each column with its cards in order.
    [renderBoard] does not assign to [state]. *)
Definition renderBoard (st : State) : list (Column * list Task) :=
  map (fun col => (col, columnTasks st col)) COLUMNS.

End Render.

(** *** Loading the remote collection *)

(** A document of the remote collection: [doc.id] and the fields of
    [doc.data()] that [loadTasksFromFirebase] reads.  The title and the
    status are taken as they are, the other fields may be absent.
    [doc_createdAt] is the time value of [new Date(data.createdAt)] when
    [data.createdAt] is present. *)
Record RemoteDoc : Type := mkDoc {
  doc_id : string;
  doc_title : string;
  doc_status : string;
  doc_dueDate : option string;
  doc_createdAt : option Num;
  doc_description : option string;
  doc_priority : option string
}.

(** The task object built for one document; [now] is the reading of
    [Date.now()] for this document. *)
Definition taskOfDoc (d : RemoteDoc) (now : Z) : Task :=
  mkTask (doc_id d)
         (doc_title d)
         (or_default (doc_description d) "")
         (doc_status d)
         (or_default (doc_priority d) "medium")
         (match doc_dueDate d with
          | Some s => if truthy_string s then DateStr s else NoDate
          | None => NoDate
          end)
         false [] []
         (match doc_createdAt d with
          | Some n => n
          | None => Finite now
          end)
         None.

(** [loadTasksFromFirebase] up to its [await]: the local list is emptied. *)
Definition loadTasksFromFirebase_begin (st : State) : State :=
  set_tasks st [].

(** [loadTasksFromFirebase] after [getDocs] has answered: one task is
    pushed per document.  (When [getDocs] fails nothing more happens.) *)
Definition loadTasksFromFirebase_resolve (docs : list (RemoteDoc * Z)) (st : State) : State :=
  set_tasks st (tasks st ++ map (fun dn => taskOfDoc (fst dn) (snd dn)) docs).

(** *** Mutations of the board *)

(** [updateTaskStatus(id, status)]. *)
Definition updateTaskStatus (i : string) (s : string) (st : State) : State :=
  match find_task i (tasks st) with
  | Some _ => set_tasks st (assign i (fun task => set_status task s) (tasks st))
  | None => st
  end.

(** The [drop] listener of the task list of column [zone]: [taskId] is the
    text carried by the drag. *)
Definition drop (zone : Column) (taskId : string) (st : State) : State :=
  updateTaskStatus taskId (col_id zone) st.

(** [togglePin(id)]. *)
Definition togglePin (i : string) (st : State) : State :=
  match find_task i (tasks st) with
  | Some _ =>
      set_tasks st (assign i (fun task => set_pinned task (negb (pinned task))) (tasks st))
  | None => st
  end.

(** The object [newTask] of [duplicateTask].  Every field of a task is a
    string, a number, a boolean, [null] or an array of objects with such
    fields, on which [JSON.parse(JSON.stringify(_))] gives back an equal
    value that shares nothing with the original. *)
Definition duplicateOf (t : Task) (now_id now_created now_updated : Z) : Task :=
  mkTask (Number_toString now_id)
         (if negb (includes (title t) " (Copy)") then title t ++ " (Copy)" else title t)
         (description t) (status t) (priority t) (dueDate t) (pinned t)
         (subtasks t) (files t)
         (Finite now_created) (Some now_updated).

(** [duplicateTask(id)]. *)
Definition duplicateTask (i : string) (now_id now_created now_updated : Z) (st : State) : State :=
  match find_task i (tasks st) with
  | None => st
  | Some taskToDuplicate =>
      set_tasks st (duplicateOf taskToDuplicate now_id now_created now_updated :: tasks st)
  end.

(** [deleteTask(id)]: the register is assigned, the tasks with that id are
    filtered out, and a toast offers the undo. *)
Definition deleteTask (i : string) (now : Z) (st : State) : State :=
  match find_task i (tasks st) with
  | None => st
  | Some taskToDelete =>
      let st1 := set_lastDeletedTask st (Some (mkDeleted taskToDelete now)) in
      let st2 := set_tasks st1 (filter (fun task => negb (String.eqb (id task) i)) (tasks st1)) in
      showToast st2 UndoDelete
  end.

(** [clearBoard()]. *)
Definition clearBoard (st : State) : State :=
  let previousTasks := tasks st in
  showToast (set_tasks st []) (UndoClear previousTasks).

(** The body of an undo closure. *)
Definition runUndo (a : UndoAction) (st : State) : State :=
  match a with
  | UndoDelete =>
      match lastDeletedTask st with
      | Some d => set_lastDeletedTask (set_tasks st (tasks st ++ [snapshot d])) None
      | None => st
      end
  | UndoClear previousTasks => set_tasks st previousTasks
  end.

Fixpoint remove_nth {A : Type} (n : nat) (l : list A) {struct l} : list A :=
  match l with
  | [] => []
  | x :: l' =>
      match n with
      | O => l'
      | S n' => x :: remove_nth n' l'
      end
  end.

(** [hideToast] on the [n]-th toast with an undo button (by its timer or
    its close button): the toast leaves the screen. *)
Definition hideToast (n : nat) (st : State) : State :=
  set_toasts st (remove_nth n (toasts st)).

(** A click on the undo button of the [n]-th toast: the closure runs and
    the toast is hidden. *)
Definition clickUndo (n : nat) (st : State) : State :=
  match nth_error (toasts st) n with
  | Some a => hideToast n (runUndo a st)
  | None => st
  end.

(** [toggleSortOrder()]. *)
Definition toggleSortOrder (st : State) : State :=
  set_sortOrder st
    (if String.eqb (sortOrder st) "none" then "asc"
     else if String.eqb (sortOrder st) "asc" then "desc" else "none").

(** *** Files dropped on the board *)

(** A dropped [File]; [dropped_objectURL] is what [URL.createObjectURL]
    returns for it. *)
Record DroppedFile : Type := mkDropped {
  dropped_name : string;
  dropped_size : Z;
  dropped_type : string;
  dropped_lastModified : Z;
  dropped_objectURL : string
}.

Definition fileInfo (f : DroppedFile) : FileInfo :=
  mkFileInfo (dropped_name f) (dropped_size f) (dropped_type f) (dropped_lastModified f)
             (if startsWith (dropped_type f) "image/" then dropped_objectURL f else "#").

(** [handleFileDrop(e)]: [taskId] is the value of the element [taskId], if
    the page has one. *)
Definition handleFileDrop (taskId : option string) (dropped : list DroppedFile)
           (now_id now_created : Z) (st : State) : State :=
  match dropped with
  | [] => st
  | first :: _ =>
      let task :=
        match taskId with
        | Some i => if truthy_string i then find_task i (tasks st) else None
        | None => None
        end in
      match task with
      | Some t =>
          set_tasks st
            (assign (id t) (fun t' => set_files t' (files t' ++ map fileInfo dropped)) (tasks st))
      | None =>
          let newTask :=
            mkTask (Number_toString now_id)
                   (before_dot (dropped_name first))
                   ("Added " ++ Number_toString (Z.of_nat (List.length dropped)) ++ " file(s)")
                   "todo" "medium" NoDate false []
                   (map fileInfo dropped)
                   (Finite now_created) None in
          set_tasks st (tasks st ++ [newTask])
      end
  end.

(** *** The task form *)

(** The values of the form fields at submission. *)
Record Form : Type := mkForm {
  form_dataset_id : string;
  form_title : string;
  form_description : string;
  form_priority : string;
  form_status : string;
  form_dueDate : string
}.

Section Events.

Variable Date_parse : string -> Num.

(** [String.prototype.trim]: [trim s] is [s.trim()]. *)
Variable trim : string -> string.

(** [dueDate ? new Date(dueDate).getTime() : null].  A date that does not
    parse gives NaN, which every reader of [dueDate] treats as [null]. *)
Definition formDueDate (dueDate : string) : DueDate :=
  if truthy_string dueDate then
    match Date_parse dueDate with
    | Finite ms => DateMs ms
    | NaN => NoDate
    end
  else NoDate.

(** [handleFormSubmit(e)]; [currentSubtasks] is [getSubtasksFromUI()].  The
    write to the remote collection is not part of the board state. *)
Definition handleFormSubmit (form : Form) (currentSubtasks : list Subtask)
           (now_id now_updated now_created : Z) (st : State) : State :=
  let i := or_string (form_dataset_id form) (Number_toString now_id) in
  let title := trim (form_title form) in
  let description := trim (form_description form) in
  let existingTask := find_task i (tasks st) in
  let taskData (e : option Task) (created : Num) : Task :=
    mkTask i
           (or_string title "Untitled Task")
           (or_string description "")
           (form_status form)
           (form_priority form)
           (formDueDate (form_dueDate form))
           (match e with Some t => pinned t | None => false end)
           (match currentSubtasks with
            | _ :: _ => currentSubtasks
            | [] => match e with Some t => subtasks t | None => [] end
            end)
           (match e with Some t => files t | None => [] end)
           created
           (Some now_updated) in
  match existingTask with
  | Some _ =>
      set_tasks st (assign i (fun t => taskData (Some t) (createdAt t)) (tasks st))
  | None =>
      set_tasks st (tasks st ++ [taskData None (Finite now_created)])
  end.

(** *** Events *)

(** What can happen to the board. *)
Inductive Event : Type :=
| LoadBegin
| LoadResolve (docs : list (RemoteDoc * Z))
| FormSubmit (form : Form) (currentSubtasks : list Subtask) (now_id now_updated now_created : Z)
| DropCard (zone : Column) (taskId : string)
| TogglePin (i : string)
| Duplicate (i : string) (now_id now_created now_updated : Z)
| Delete (i : string) (now : Z)
| ClearBoard
| ClickUndo (n : nat)
| HideToast (n : nat)
| ToggleSortOrder
| SearchInput (q : string)
| PriorityChange (p : string)
| FileDrop (taskId : option string) (dropped : list DroppedFile) (now_id now_created : Z).

Definition handle (e : Event) (st : State) : State :=
  match e with
  | LoadBegin => loadTasksFromFirebase_begin st
  | LoadResolve docs => loadTasksFromFirebase_resolve docs st
  | FormSubmit form subs n1 n2 n3 => handleFormSubmit form subs n1 n2 n3 st
  | DropCard zone taskId => drop zone taskId st
  | TogglePin i => togglePin i st
  | Duplicate i n1 n2 n3 => duplicateTask i n1 n2 n3 st
  | Delete i now => deleteTask i now st
  | ClearBoard => clearBoard st
  | ClickUndo n => clickUndo n st
  | HideToast n => hideToast n st
  | ToggleSortOrder => toggleSortOrder st
  | SearchInput q => set_filterQuery st q
  | PriorityChange p => set_priorityFilter st p
  | FileDrop taskId dropped n1 n2 => handleFileDrop taskId dropped n1 n2 st
  end.

(** The board after a sequence of events, first event first. *)
Definition run (es : list Event) (st : State) : State :=
  fold_left (fun s e => handle e s) es st.

End Events.

End Board.

(** ** The specification's vocabulary *)

Module Spec.

Import Js Board.

(** A Greek letter: the two bytes of its UTF-8 form. *)
Definition greek (b1 b2 : ascii) : string := String b1 (String b2 "").

(** The characters of a text, each as a text of its own. *)
Fixpoint letters (s : string) : list string :=
  match s with
  | EmptyString => []
  | String c s' => String c "" :: letters s'
  end.

(** The Latin letters of ASCII in their two cases, the capital first. *)
Definition latin_pairs : list (string * string) :=
  combine (letters "ABCDEFGHIJKLMNOPQRSTUVWXYZ")
          (letters "abcdefghijklmnopqrstuvwxyz").

(** The Greek letters in their two cases, from alpha (206 145 and 206 177)
    to omega (206 169 and 207 137), the capital sigma (206 163) with its
    two small forms, sigma (207 131) and final sigma (207 130). *)
Definition greek_pairs : list (string * string) :=
  [(greek "206" "145", greek "206" "177"); (greek "206" "146", greek "206" "178");
   (greek "206" "147", greek "206" "179"); (greek "206" "148", greek "206" "180");
   (greek "206" "149", greek "206" "181"); (greek "206" "150", greek "206" "182");
   (greek "206" "151", greek "206" "183"); (greek "206" "152", greek "206" "184");
   (greek "206" "153", greek "206" "185"); (greek "206" "154", greek "206" "186");
   (greek "206" "155", greek "206" "187"); (greek "206" "156", greek "206" "188");
   (greek "206" "157", greek "206" "189"); (greek "206" "158", greek "206" "190");
   (greek "206" "159", greek "206" "191"); (greek "206" "160", greek "207" "128");
   (greek "206" "161", greek "207" "129"); (greek "206" "163", greek "207" "131");
   (greek "206" "163", greek "207" "130"); (greek "206" "164", greek "207" "132");
   (greek "206" "165", greek "207" "133"); (greek "206" "166", greek "207" "134");
   (greek "206" "167", greek "207" "135"); (greek "206" "168", greek "207" "136");
   (greek "206" "169", greek "207" "137")].

(** Letters in their two cases, the capital first. *)
Definition case_pairs : list (string * string) := latin_pairs ++ greek_pairs.

(** [u] and [l] are the capital and the small form of one letter. *)
Definition case_pair (u l : string) : bool :=
  existsb (fun p => String.eqb (fst p) u && String.eqb (snd p) l) case_pairs.

(** Two texts are equal ignoring case when one becomes the other by
    changing the case of some of its letters. *)
Inductive same_ignoring_case : string -> string -> Prop :=
| sic_empty : same_ignoring_case "" ""
| sic_same (c : ascii) (s t : string) :
    same_ignoring_case s t ->
    same_ignoring_case (String c s) (String c t)
| sic_small (u l s t : string) :
    case_pair u l = true ->
    same_ignoring_case s t ->
    same_ignoring_case (u ++ s) (l ++ t)
| sic_capital (u l s t : string) :
    case_pair u l = true ->
    same_ignoring_case s t ->
    same_ignoring_case (l ++ s) (u ++ t).

(** [q] is a case-insensitive substring of [s]: some contiguous part of
    [s] equals [q] ignoring case. *)
Definition occurs_ignoring_case (q s : string) : Prop :=
  exists pre mid post : string,
    s = (pre ++ mid ++ post)%string /\ same_ignoring_case mid q.

(** The values of [state.priorityFilter], as the documentation of [state]
    in [script.js] lists them. *)
Definition priority_filters : list string := ["all"; "high"; "medium"; "low"].

(** The filter of a column as the specification has it, for whatever the
    texts are: a task of a column's bucket is displayed exactly when the
    query is empty or occurs, ignoring case, in its title or in its
    description, and the priority filter is [all] or equals its priority
    ignoring case. *)
Definition filter_ignores_case (Date_parse : string -> Num)
           (toLowerCase : string -> string) : Prop :=
  forall (st : State) (col : Column) (task : Task),
    In (priorityFilter st) priority_filters ->
    In task (tasks st) ->
    status task = col_id col ->
    (In task (columnTasks Date_parse toLowerCase st col) <->
     (filterQuery st = ""%string
      \/ occurs_ignoring_case (filterQuery st) (title task)
      \/ occurs_ignoring_case (filterQuery st) (description task))
     /\ (priorityFilter st = "all"%string
         \/ same_ignoring_case (priorityFilter st) (priority task))).

(** A status of the fixed set: the id of a column. *)
Definition valid_status (s : string) : Prop := In s (map col_id COLUMNS).

(** Ids are unique across the store. *)
Definition unique_ids (l : list Task) : Prop := NoDup (map id l).

(** The task with id [i] is the only task of [l] with that id. *)
Definition only_task_with_id (i : string) (l : list Task) : Prop :=
  List.length (filter (fun u => String.eqb (id u) i) l) = 1%nat.

(** Delete and undo as the specification has them, for every store and
    every id present in it: the undo of the deletion gives a store with the
    tasks of the store before the deletion. *)
Definition undo_restores_every_store : Prop :=
  forall (st : State) (i : string) (t : Task) (now : Z),
    find_task i (tasks st) = Some t ->
    Permutation
      (tasks (clickUndo (List.length (toasts st)) (deleteTask i now st)))
      (tasks st).

(** The integer that a decimal numeral denotes. *)
Definition numeral_value (s : string) : option Z :=
  option_map Z.of_int (NilZero.int_of_string s).

(** The id of a duplicate as the specification has it, fresh: whatever the
    store and the clock, the task that [duplicateTask] puts in front of the
    store has an id that no task of the store has. *)
Definition duplicate_id_is_fresh : Prop :=
  forall (st : State) (i : string) (t : Task) (n1 n2 n3 : Z)
         (copy : Task) (rest : list Task),
    find_task i (tasks st) = Some t ->
    tasks (duplicateTask i n1 n2 n3 st) = copy :: rest ->
    ~ In (id copy) (map id (tasks st)).

(** [a] is displayed before [b] in the ordered list [view]. *)
Definition displayed_before (view : list Task) (a b : Task) : Prop :=
  exists l1 l2 l3 : list Task, view = (l1 ++ a :: l2 ++ b :: l3)%list.


(** [st'] is [st] but for its task list. *)
Definition same_but_tasks (st st' : State) : Prop :=
  filterQuery st' = filterQuery st /\ priorityFilter st' = priorityFilter st
  /\ sortOrder st' = sortOrder st /\ lastDeletedTask st' = lastDeletedTask st
  /\ toasts st' = toasts st.

(** The statuses that an event brings in from outside the board are column
    ids: the status field of a submitted form, and the status of every
    remote document of a load. *)
Definition brings_valid_status (e : Event) : Prop :=
  match e with
  | FormSubmit form _ _ _ _ => valid_status (form_status form)
  | LoadResolve docs => Forall (fun dn => valid_status (doc_status (fst dn))) docs
  | _ => True
  end.

(** The tasks [l], at least one, are all in the store of [st]. *)
Definition restored (l : list Task) (st : State) : Prop :=
  l <> [] /\ incl l (tasks st).

(** Undo buttons clicked one after the other, by position among the
    toasts on screen. *)
Definition click_all (clicks : list nat) (st : State) : State :=
  fold_left (fun s n => clickUndo n s) clicks st.

(** The single undo slot as the specification has it, for a delete of the
    task with id [i] followed by a clear of the board: whatever undo
    buttons are clicked afterwards, the deleted task and the cleared tasks
    are not both back in the store. *)
Definition at_most_one_restored (st : State) (i : string) (now : Z) : Prop :=
  forall (t : Task) (clicks : list nat),
    find_task i (tasks st) = Some t ->
    let deleted := deleteTask i now st in
    let final := click_all clicks (clearBoard deleted) in
    ~ (restored [t] final /\ restored (tasks deleted) final).

(** The status invariant as the specification has it: whatever the events,
    loads included, every task of the store has a status of the fixed
    set. *)
Definition status_always_valid (Date_parse : string -> Num)
           (trim : string -> string) : Prop :=
  forall (es : list Event) (t : Task),
    In t (tasks (run Date_parse trim es initial)) -> valid_status (status t).

(** Every task of [l] has a status of the fixed set. *)
Definition statuses_valid (l : list Task) : Prop :=
  Forall (fun t => valid_status (status t)) l.

(** The status invariant over everything the board holds: the store, the
    undo register and the task lists kept by the toasts. *)
Definition state_valid (st : State) : Prop :=
  statuses_valid (tasks st)
  /\ (forall d : DeletedTask,
        lastDeletedTask st = Some d -> valid_status (status (snapshot d)))
  /\ Forall (fun a => match a with
                      | UndoDelete => True
                      | UndoClear previousTasks => statuses_valid previousTasks
                      end) (toasts st).

(** Every due date of [t] that counts as one is a valid date. *)
Definition well_dated (Date_parse : string -> Num) (t : Task) : Prop :=
  has_dueDate t = true -> exists ms : Z, new_Date Date_parse (dueDate t) = Finite ms.

(** [a] may stand before [b] when the order is by due date ascending,
    tasks without a due date after all dated ones. *)
Definition ascending (Date_parse : string -> Num) (a b : Task) : Prop :=
  match has_dueDate a, has_dueDate b with
  | true, true =>
      exists x y : Z,
        new_Date Date_parse (dueDate a) = Finite x
        /\ new_Date Date_parse (dueDate b) = Finite y /\ x <= y
  | true, false => True
  | false, true => False
  | false, false => True
  end.

(** [a] may stand before [b] when the order is by due date descending,
    tasks without a due date before all dated ones. *)
Definition descending (Date_parse : string -> Num) (a b : Task) : Prop :=
  match has_dueDate a, has_dueDate b with
  | true, true =>
      exists x y : Z,
        new_Date Date_parse (dueDate a) = Finite x
        /\ new_Date Date_parse (dueDate b) = Finite y /\ y <= x
  | true, false => False
  | false, true => True
  | false, false => True
  end.

End Spec.

(** ** Boards used as examples *)

Module Examples.

Import Js Board.

(** A [Date.parse] that knows no date format; the due dates of the
    examples are numbers. *)
Definition unparsed (s : string) : Num := NaN.

Definition task (i ttl st : string) (due : DueDate) (pin : bool) : Task :=
  mkTask i ttl "" st "medium" due pin [] [] (Finite 1700000000000) None.

(** Due on 2024-06-01 and on 2024-01-01 (UTC), and without a due date. *)
Definition june : Task := task "1" "Report" "todo" (DateMs 1717200000000) false.
Definition january : Task := task "2" "Slides" "todo" (DateMs 1704067200000) false.
Definition undated : Task := task "3" "Notes" "todo" NoDate false.

Definition board (l : list Task) (order : string) : State :=
  mkState l "" "all" order None [].

(** A remote document whose status is not a column id. *)
Definition archived_doc : RemoteDoc :=
  mkDoc "r1" "Old" "archived" None None None None.

Definition todo_doc : RemoteDoc :=
  mkDoc "r2" "New" "todo" (Some "2024-01-01") None (Some "from remote") (Some "high").

Definition form_example : Form :=
  mkForm "" "  Essay " "" "high" "progress" "".

(** Boards and sessions of the instances below. *)
Definition two_tasks : State := board [june; january] "none".

Definition three_tasks : State := board [june; january; undated] "none".

Definition searching : State :=
  mkState [june; january] "REP" "medium" "none" None [].

Definition session : list Event :=
  [LoadBegin;
   LoadResolve [(todo_doc, 1700000000001)];
   FormSubmit form_example [] 1700000000002 1700000000003 1700000000004;
   DropCard Done "r2";
   Delete "r2" 1700000000005;
   ClickUndo 0].

(** A second task with the id of [june], and a priority filter in upper
    case. *)
Definition twin : Task := task "1" "Twin" "done" NoDate true.

Definition shouting : State :=
  mkState [june; january] "" "MEDIUM" "none" None [].

(** The board [two_tasks] after the June task was duplicated, and after it
    was duplicated once more at the same reading of the clock. *)
Definition copied_once : State := duplicateTask "1" 7 7 7 two_tasks.

Definition copied_twice : State := duplicateTask "1" 7 7 7 copied_once.

(** Greek texts in UTF-8: the capitals kappa, omicron, sigma; what
    [toLowerCase] makes of them, the sigma at the end of a word becoming a
    final sigma; and the word kosmos in small letters, with a sigma inside
    and a final sigma at its end. *)
Definition capitals_kos : string :=
  Spec.greek "206" "154" ++ Spec.greek "206" "159" ++ Spec.greek "206" "163".

Definition small_kos : string :=
  Spec.greek "206" "186" ++ Spec.greek "206" "191" ++ Spec.greek "207" "130".

Definition kosmos : string :=
  Spec.greek "206" "186" ++ Spec.greek "206" "191" ++ Spec.greek "207" "131"
  ++ Spec.greek "206" "188" ++ Spec.greek "206" "191" ++ Spec.greek "207" "130".

(** A lower-casing function that is [String.prototype.toLowerCase] on the
    texts of the next board: on the capitals above, and on the texts whose
    capitals are all letters of ASCII. *)
Definition lower_final_sigma (s : string) : string :=
  if String.eqb s capitals_kos then small_kos else toLowerCase s.

(** A task titled kosmos, and the board when the capitals are typed in the
    search field. *)
Definition kosmos_task : Task := task "4" kosmos "todo" NoDate false.

Definition greek_search : State :=
  mkState [kosmos_task] capitals_kos "all" "none" None [].

End Examples.

(** ** Task cards: markup text, file icons, the overdue mark *)

Module Card.

Import Js Board.

(** The markup of a text node, as [innerHTML] gives it: the ampersand,
    the angle brackets and the no-break space (the bytes 194 160 of a
    UTF-8 text) become character references; every other character, the
    double quote included, stays. *)
Fixpoint escapeText (s : string) : string :=
  match s with
  | EmptyString => EmptyString
  | String c rest =>
      if Ascii.eqb c "&" then "&amp;" ++ escapeText rest
      else if Ascii.eqb c "<" then "&lt;" ++ escapeText rest
      else if Ascii.eqb c ">" then "&gt;" ++ escapeText rest
      else if Ascii.eqb c "194" then
        match rest with
        | String d rest' =>
            if Ascii.eqb d "160" then "&nbsp;" ++ escapeText rest'
            else String c (escapeText rest)
        | EmptyString => String c EmptyString
        end
      else String c (escapeText rest)
  end.

(** [sanitize(html)]: the text is put in a [div] as [textContent] and read
    back as [innerHTML]. *)
Definition sanitize (html : string) : string := escapeText html.

(** The text of the title of a card: [sanitize(task.title) || '/']. *)
Definition cardTitleText (task : Task) : string :=
  or_string (sanitize (title task)) "/".

(** [s.split('.')]: the parts of [s] between its dots, at least one. *)
Fixpoint split_dot (s : string) : list string :=
  match s with
  | EmptyString => [EmptyString]
  | String c s' =>
      if Ascii.eqb c "." then EmptyString :: split_dot s'
      else match split_dot s' with
           | part :: parts => String c part :: parts
           | [] => [String c EmptyString]
           end
  end.

(** [a.pop()] of an array of strings that has an element. *)
Definition pop (a : list string) : string := last a EmptyString.

(** The own properties of the object [icons] of [getFileIcon]. *)
Definition icons : list (string * string) :=
  [("jpg", "fa-file-image"); ("jpeg", "fa-file-image"); ("png", "fa-file-image");
   ("gif", "fa-file-image"); ("webp", "fa-file-image"); ("svg", "fa-file-image");
   ("pdf", "fa-file-pdf"); ("doc", "fa-file-word"); ("docx", "fa-file-word");
   ("txt", "fa-file-alt"); ("rtf", "fa-file-alt");
   ("xls", "fa-file-excel"); ("xlsx", "fa-file-excel"); ("csv", "fa-file-csv");
   ("zip", "fa-file-archive"); ("rar", "fa-file-archive"); ("7z", "fa-file-archive");
   ("js", "fa-file-code"); ("html", "fa-file-code"); ("css", "fa-file-code");
   ("json", "fa-file-code");
   ("default", "fa-file")].

(** What [icons[key]] evaluates to: the string of an own property, a
    member that the object inherits from [Object.prototype], or
    [undefined].  A key of [getFileIcon] is in lower case, and the
    inherited members with a name in lower case are [constructor] and
    [__proto__]. *)
Inductive Member : Type :=
| Own (value : string)
| Inherited (name : string)
| Undefined.

Definition get (o : list (string * string)) (key : string) : Member :=
  match find (fun kv => String.eqb (fst kv) key) o with
  | Some kv => Own (snd kv)
  | None =>
      if String.eqb key "constructor" || String.eqb key "__proto__"
      then Inherited key
      else Undefined
  end.

(** [getFileIcon(filename)]: [icons[ext] || icons['default']].  The
    extension is lowered with [toLowerCase] for ASCII texts: the keys of
    the table and the two inherited names are ASCII texts without the
    letter k, the one letter of ASCII that a character beyond ASCII (the
    Kelvin sign) is lowered to, so an extension with such a character
    finds no member under the built-in either. *)
Definition getFileIcon (filename : string) : Member :=
  let ext := toLowerCase (pop (split_dot filename)) in
  match get icons ext with
  | Own value => if truthy_string value then Own value else get icons "default"
  | Inherited name => Inherited name
  | Undefined => get icons "default"
  end.

Section Overdue.

Variable Date_parse : string -> Num.

(** The local midnight that starts the day of an instant: what
    [setHours(0, 0, 0, 0)] makes of a valid date.  It depends on the time
    zone of the browser. *)
Variable startOfDay : Z -> Z.

(** [d.setHours(0, 0, 0, 0)] on the time value of a date. *)
Definition setHours0 (d : Num) : Num :=
  match d with
  | Finite t => TimeClip (startOfDay t)
  | NaN => NaN
  end.

(** [a < b] on the time values of two dates. *)
Definition before (a b : Num) : bool :=
  match a, b with
  | Finite x, Finite y => x <? y
  | _, _ => false
  end.

(** Whether [createTaskCard] gives the card the class [overdue]; [now] is
    the time of [new Date()]. *)
Definition isOverdue (now : Z) (task : Task) : bool :=
  if has_dueDate task && negb (String.eqb (status task) "done") then
    let today := setHours0 (TimeClip now) in
    let dueDate := setHours0 (new_Date Date_parse (dueDate task)) in
    before dueDate today
  else false.

End Overdue.

End Card.

(** ** The theme *)

Module ThemeManager.

Import Js.

(** [THEMES]. *)
Definition LIGHT : string := "light".
Definition DARK : string := "dark".

(** What the theme code reads and writes: the attribute [data-theme] of
    the document element ([None] while it is not set) and the item
    [kanbanflow_theme] of [localStorage].  A storage that the browser
    denies throws on every access. *)
Record Theme : Type := mkTheme {
  attribute : option string;
  item : option string;
  storage_throws : bool
}.

(** [Object.values(THEMES).includes(theme)]. *)
Definition is_theme (theme : string) : bool :=
  String.eqb theme LIGHT || String.eqb theme DARK.

(** [setTheme(theme, savePreference)]: an unknown theme counts as light; a
    failing write of the preference is caught. *)
Definition setTheme (theme : string) (savePreference : bool) (t : Theme) : Theme :=
  let theme := if is_theme theme then theme else LIGHT in
  mkTheme (Some theme)
          (if savePreference && negb (storage_throws t) then Some theme else item t)
          (storage_throws t).

(** [toggleTheme()]: the attribute is compared with [light]. *)
Definition toggleTheme (t : Theme) : Theme :=
  let newTheme :=
    match attribute t with
    | Some current => if String.eqb current LIGHT then DARK else LIGHT
    | None => LIGHT
    end in
  setTheme newTheme true t.

(** [getSystemPreference()]; [prefersDark] is what the media query
    answers. *)
Definition getSystemPreference (prefersDark : bool) : string :=
  if prefersDark then DARK else LIGHT.

(** [getSavedThemePreference()]. *)
Definition getSavedThemePreference (prefersDark : bool) (t : Theme) : string :=
  if storage_throws t then LIGHT
  else match item t with
       | Some saved => or_string saved (getSystemPreference prefersDark)
       | None => getSystemPreference prefersDark
       end.

(** [ThemeManager.init()], as far as the theme goes. *)
Definition init (prefersDark : bool) (t : Theme) : Theme :=
  setTheme (getSavedThemePreference prefersDark t) false t.

(** [handleSystemThemeChange(event)]: the read of the storage is not
    guarded, so with a storage that throws the listener ends there. *)
Definition handleSystemThemeChange (matches : bool) (t : Theme) : Theme :=
  if storage_throws t then t
  else match item t with
       | Some saved =>
           if truthy_string saved then t
           else setTheme (if matches then DARK else LIGHT) false t
       | None => setTheme (if matches then DARK else LIGHT) false t
       end.

(** [getCurrentTheme()]. *)
Definition getCurrentTheme (t : Theme) : string :=
  match attribute t with
  | Some current => or_string current LIGHT
  | None => LIGHT
  end.

(** The initial value of [state.theme]. *)
Definition theme_at_load (t : Theme) : string :=
  if storage_throws t then "light"
  else match item t with
       | Some saved => or_string saved "light"
       | None => "light"
       end.

(** What can happen to the theme. *)
Inductive ThemeEvent : Type :=
| Init (prefersDark : bool)
| Toggle
| SetTheme (theme : string) (savePreference : bool)
| SystemChange (matches : bool).

Definition handle (e : ThemeEvent) (t : Theme) : Theme :=
  match e with
  | Init prefersDark => init prefersDark t
  | Toggle => toggleTheme t
  | SetTheme theme savePreference => setTheme theme savePreference t
  | SystemChange matches => handleSystemThemeChange matches t
  end.

Definition run (es : list ThemeEvent) (t : Theme) : Theme :=
  fold_left (fun s e => handle e s) es t.

End ThemeManager.

(** ** The page: dialogs, keyboard, export *)

Module Page.

Import Js Board.

(** The state of the page besides the form: the board, the id that the
    delete confirmation holds ([taskToDelete]), for each dialog whether
    its [style.display] is [flex], whether the scrolling of the body is
    locked ([overflow] is [hidden]), the theme, and [state.theme]. *)
Record Page : Type := mkPage {
  board : State;
  taskToDelete : option string;
  modalOverlay : bool;
  deleteConfirmModal : bool;
  clearBoardModal : bool;
  keyboardShortcutsModal : bool;
  overflowHidden : bool;
  theme : ThemeManager.Theme;
  state_theme : string
}.

Definition set_board (p : Page) (b : State) : Page :=
  mkPage b (taskToDelete p) (modalOverlay p) (deleteConfirmModal p)
         (clearBoardModal p) (keyboardShortcutsModal p) (overflowHidden p)
         (theme p) (state_theme p).

Definition set_theme (p : Page) (t : ThemeManager.Theme) : Page :=
  mkPage (board p) (taskToDelete p) (modalOverlay p) (deleteConfirmModal p)
         (clearBoardModal p) (keyboardShortcutsModal p) (overflowHidden p)
         t (state_theme p).

(** [openModal(taskId, status)], as far as the page state goes: the form
    it fills is an argument of [handleFormSubmit]. *)
Definition openModal (p : Page) : Page :=
  mkPage (board p) (taskToDelete p) true (deleteConfirmModal p)
         (clearBoardModal p) (keyboardShortcutsModal p) true
         (theme p) (state_theme p).

(** [closeModal()]. *)
Definition closeModal (p : Page) : Page :=
  mkPage (board p) (taskToDelete p) false (deleteConfirmModal p)
         (clearBoardModal p) (keyboardShortcutsModal p) false
         (theme p) (state_theme p).

(** [showDeleteConfirmation(id)]. *)
Definition showDeleteConfirmation (i : string) (p : Page) : Page :=
  mkPage (board p) (Some i) (modalOverlay p) true
         (clearBoardModal p) (keyboardShortcutsModal p) true
         (theme p) (state_theme p).

(** [hideDeleteConfirmation()]. *)
Definition hideDeleteConfirmation (p : Page) : Page :=
  mkPage (board p) None (modalOverlay p) false
         (clearBoardModal p) (keyboardShortcutsModal p) false
         (theme p) (state_theme p).

(** [showClearBoardConfirmation()]. *)
Definition showClearBoardConfirmation (p : Page) : Page :=
  mkPage (board p) (taskToDelete p) (modalOverlay p) (deleteConfirmModal p)
         true (keyboardShortcutsModal p) true
         (theme p) (state_theme p).

(** [hideClearBoardConfirmation()]. *)
Definition hideClearBoardConfirmation (p : Page) : Page :=
  mkPage (board p) (taskToDelete p) (modalOverlay p) (deleteConfirmModal p)
         false (keyboardShortcutsModal p) false
         (theme p) (state_theme p).

(** [deleteTask(id)] on the page: when the task is found the confirmation
    is hidden as well. *)
Definition deleteTask (i : string) (now : Z) (p : Page) : Page :=
  match find_task i (tasks (board p)) with
  | None => p
  | Some _ => hideDeleteConfirmation (set_board p (Board.deleteTask i now (board p)))
  end.

(** The click listener of the button [confirmDelete]. *)
Definition confirmDelete (now : Z) (p : Page) : Page :=
  match taskToDelete p with
  | Some i =>
      if truthy_string i then hideDeleteConfirmation (deleteTask i now p) else p
  | None => p
  end.

(** [clearBoard()] on the page: the confirmation is hidden as well. *)
Definition clearBoard (p : Page) : Page :=
  hideClearBoardConfirmation (set_board p (Board.clearBoard (board p))).

(** A [keydown] event: the key, the Alt modifier, and whether the target
    of the event and the active element of the document are text fields
    ([INPUT], [TEXTAREA] or editable content). *)
Record KeyEvent : Type := mkKey {
  key : string;
  altKey : bool;
  targetIsField : bool;
  activeIsField : bool
}.

(** The [keydown] listener that [DOMContentLoaded] puts on the document
    for Alt+T. *)
Definition onAltT (e : KeyEvent) (p : Page) : Page :=
  if altKey e && String.eqb (toLowerCase (key e)) "t"
  then set_theme p (ThemeManager.toggleTheme (theme p))
  else p.

(** [handleKeyboardShortcuts(e)].  The key [/] moves the focus to the
    search field, which is not part of the page state; the key [n] clicks
    the first button that adds a task, and the click opens the form. *)
Definition handleKeyboardShortcuts (e : KeyEvent) (p : Page) : Page :=
  if targetIsField e then p
  else if String.eqb (key e) "Escape" then
    if modalOverlay p then closeModal p
    else if deleteConfirmModal p then hideDeleteConfirmation p
    else if keyboardShortcutsModal p then
      mkPage (board p) (taskToDelete p) (modalOverlay p) (deleteConfirmModal p)
             (clearBoardModal p) false (overflowHidden p)
             (theme p) (state_theme p)
    else p
  else if activeIsField e then p
  else if String.eqb (key e) "?" then
    mkPage (board p) (taskToDelete p) (modalOverlay p) (deleteConfirmModal p)
           (clearBoardModal p) (negb (keyboardShortcutsModal p)) (overflowHidden p)
           (theme p) (state_theme p)
  else if String.eqb (key e) "/" then p
  else if String.eqb (toLowerCase (key e)) "n" then openModal p
  else if String.eqb (toLowerCase (key e)) "t" then
    set_theme p (ThemeManager.toggleTheme (theme p))
  else p.

(** The [keydown] listener that [setupEventListeners] puts on the
    window. *)
Definition onEscape (e : KeyEvent) (p : Page) : Page :=
  if String.eqb (key e) "Escape"
  then hideClearBoardConfirmation (hideDeleteConfirmation (closeModal p))
  else p.

(** A key goes down: the two listeners of the document run in the order
    in which they were added, then the listener of the window. *)
Definition keydown (e : KeyEvent) (p : Page) : Page :=
  onEscape e (handleKeyboardShortcuts e (onAltT e p)).

(** The object that [exportBoard] serializes; [exportedAt] is the time of
    the export as [toISOString] prints it. *)
Record ExportData : Type := mkExport {
  export_version : string;
  export_tasks : list Task;
  export_theme : string;
  export_exportedAt : string
}.

Definition exportBoard (exportedAt : string) (p : Page) : ExportData :=
  mkExport "1.0" (tasks (board p)) (state_theme p) exportedAt.

(** The page once [DOMContentLoaded] has been handled: [state] has its
    initial value, with [state.theme] read from the storage when the
    script was loaded, [ThemeManager.init()] has run twice, no dialog is
    open. *)
Definition start (prefersDark : bool) (t : ThemeManager.Theme) : Page :=
  mkPage initial None false false false false false
         (ThemeManager.init prefersDark (ThemeManager.init prefersDark t))
         (ThemeManager.theme_at_load t).

Section PageEvents.

Variable Date_parse : string -> Num.
Variable trim : string -> string.

(** What can happen to the page. *)
Inductive PageEvent : Type :=
| OnBoard (e : Board.Event)
| KeyDown (e : KeyEvent)
| ClickAdd
| ClickEdit
| ClickDelete (i : string)
| ConfirmDelete (now : Z)
| CancelDelete
| CloseModal
| ClickClear
| ConfirmClear
| CancelClear
| OnTheme (e : ThemeManager.ThemeEvent).

Definition handle (e : PageEvent) (p : Page) : Page :=
  match e with
  | OnBoard (FormSubmit form subs n1 n2 n3) =>
      closeModal (set_board p (handleFormSubmit Date_parse trim form subs n1 n2 n3 (board p)))
  | OnBoard (Delete i now) => deleteTask i now p
  | OnBoard ClearBoard => clearBoard p
  | OnBoard e' => set_board p (Board.handle Date_parse trim e' (board p))
  | KeyDown e' => keydown e' p
  | ClickAdd => openModal p
  | ClickEdit => openModal p
  | ClickDelete i => showDeleteConfirmation i p
  | ConfirmDelete now => confirmDelete now p
  | CancelDelete => hideDeleteConfirmation p
  | CloseModal => closeModal p
  | ClickClear => showClearBoardConfirmation p
  | ConfirmClear => clearBoard p
  | CancelClear => hideClearBoardConfirmation p
  | OnTheme e' => set_theme p (ThemeManager.handle e' (theme p))
  end.

Definition run (es : list PageEvent) (p : Page) : Page :=
  fold_left (fun s e => handle e s) es p.

End PageEvents.

End Page.

(** ** Vocabulary of the further properties *)

Module MoreSpec.

Import Js Board.

(** [s] neither starts nor ends with white space. *)
Definition no_outer_white (s : string) : Prop :=
  (forall (c : ascii) (rest : string), s = String c rest -> is_white c = false)
  /\ (forall (init : string) (c : ascii),
        s = (init ++ String c EmptyString)%string -> is_white c = false).

(** What is asked of a function that stands for the built-in [trim]: its
    result neither starts nor ends with white space. *)
Definition trims_white (trim : string -> string) : Prop :=
  forall s : string, no_outer_white (trim s).


(** The task has a due date whose time value is [ms]. *)
Definition due_at (Date_parse : string -> Num) (ms : Z) (t : Task) : bool :=
  has_dueDate t
  && match new_Date Date_parse (dueDate t) with
     | Finite x => x =? ms
     | NaN => false
     end.

(** The status of the task is the id of a column. *)
Definition in_a_column (t : Task) : bool :=
  existsb (fun c => String.eqb (status t) (col_id c)) COLUMNS.

(** The state with an empty search and the priority filter [all]. *)
Definition without_filters (st : State) : State :=
  set_priorityFilter (set_filterQuery st "") "all".

(** A board that has just been loaded: nothing pinned, no subtasks, no
    files, no update time, a priority in every task. *)
Definition as_loaded (t : Task) : Prop :=
  pinned t = false /\ subtasks t = [] /\ files t = []
  /\ updatedAt t = None /\ priority t <> ""%string.

(** How often the character [c] occurs in [s]. *)
Fixpoint occurrences (c : ascii) (s : string) : nat :=
  match s with
  | EmptyString => O
  | String d rest => (if Ascii.eqb d c then 1 else 0) + occurrences c rest
  end.

(** The double quote. *)
Definition double_quote : ascii := "034"%char.

(** The no-break space, in UTF-8. *)
Definition no_break_space : string := String "194" (String "160" "").

(** A text that holds none of the characters that [innerHTML] writes as a
    character reference: no ampersand, no angle bracket, no no-break
    space. *)
Definition needs_no_escape (s : string) : Prop :=
  occurrences "&" s = O /\ occurrences "<" s = O /\ occurrences ">" s = O
  /\ includes s no_break_space = false.

(** The classes that [getFileIcon] can name. *)
Definition icon_classes : list string :=
  ["fa-file-image"; "fa-file-pdf"; "fa-file-word"; "fa-file-alt";
   "fa-file-excel"; "fa-file-csv"; "fa-file-archive"; "fa-file-code";
   "fa-file"].

(** The greatest time value of a date, in milliseconds. *)
Definition max_time : Z := 8640000000000000.

(** The start of the day in a time zone without offset. *)
Definition utc_midnight (t : Z) : Z := t - t mod 86400000.

(** The theme attribute is not set, or set to one of the two themes. *)
Definition attribute_ok (t : ThemeManager.Theme) : Prop :=
  ThemeManager.attribute t = None
  \/ ThemeManager.attribute t = Some ThemeManager.LIGHT
  \/ ThemeManager.attribute t = Some ThemeManager.DARK.

End MoreSpec.

(** ** Pages and inputs used as examples *)

Module Samples.

Import Js Board Examples.

(** A form that edits the task with id 2, without subtasks. *)
Definition edit_form : Form :=
  mkForm "2" " Slides, second draft " "" "low" "done" "".

(** A dropped picture. *)
Definition picture : DroppedFile :=
  mkDropped "holiday.final.PNG" 2048 "image/png" 1700000000000 "blob:1".

(** A light theme that is stored, and a page that starts with it. *)
Definition stored_light : ThemeManager.Theme :=
  ThemeManager.mkTheme (Some "light") (Some "light") false.

Definition light_page : Page.Page :=
  Page.mkPage two_tasks None true false true true true stored_light "light".

(** Keys: Escape typed in a field, T with Alt outside a field, N typed in
    a field. *)
Definition escape_in_field : Page.KeyEvent := Page.mkKey "Escape" false true true.
Definition alt_t : Page.KeyEvent := Page.mkKey "T" true false false.
Definition n_in_field : Page.KeyEvent := Page.mkKey "n" false true true.

(** Noon of 2024-06-01 (UTC). *)
Definition noon_june_first : Z := 1717243200000.

End Samples.

(** ** Facts about the built-ins *)

Module JsFacts.

Import Js.

Lemma prefix_app (p s : string) :
  prefix p s = true <-> exists post : string, s = (p ++ post)%string.
Proof.
  revert s. induction p as [|a p IH]; intros s.
  - split; [intros _; exists s; reflexivity | destruct s; reflexivity].
  - destruct s as [|b s]; simpl.
    + split; [discriminate | intros [post H]; discriminate].
    + destruct (ascii_dec a b) as [->|Hab].
      * rewrite IH. split; intros [post H]; exists post.
        -- now rewrite H.
        -- now injection H.
      * split; [discriminate | intros [post H]; injection H; intros; congruence].
Qed.

Lemma includes_unfold (s q : string) :
  includes s q =
  if prefix q s then true
  else match s with
       | EmptyString => false
       | String _ s' => includes s' q
       end.
Proof. destruct s; reflexivity. Qed.

(** [includes] finds exactly the contiguous occurrences. *)
Lemma includes_occurs (s q : string) :
  includes s q = true <-> exists pre post : string, s = (pre ++ q ++ post)%string.
Proof.
  split.
  - induction s as [|c s IH]; rewrite includes_unfold.
    + destruct (prefix q "") eqn:E; [|discriminate].
      intros _. apply prefix_app in E. destruct E as [post E].
      exists ""%string, post. exact E.
    + destruct (prefix q (String c s)) eqn:E.
      * intros _. apply prefix_app in E. destruct E as [post E].
        exists ""%string, post. exact E.
      * intros H. destruct (IH H) as [pre [post E']].
        exists (String c pre), post. simpl. now rewrite E'.
  - intros [pre [post E]]. revert s E.
    induction pre as [|c pre IH]; intros s E; rewrite includes_unfold.
    + simpl in E. assert (P : prefix q s = true) by (apply prefix_app; eauto).
      now rewrite P.
    + simpl in E. subst s. destruct (prefix q _); [reflexivity|].
      apply IH. reflexivity.
Qed.

Lemma toLowerCase_app (a b : string) :
  toLowerCase (a ++ b) = (toLowerCase a ++ toLowerCase b)%string.
Proof. induction a as [|c a IH]; simpl; [reflexivity | now rewrite IH]. Qed.

Lemma toLowerCase_app_inv (s a b : string) :
  toLowerCase s = (a ++ b)%string ->
  exists a' b' : string,
    s = (a' ++ b')%string /\ toLowerCase a' = a /\ toLowerCase b' = b.
Proof.
  revert s. induction a as [|c a IH]; intros s H.
  - exists ""%string, s. auto.
  - destruct s as [|d s]; simpl in H; [discriminate|].
    injection H as Hc Hs. destruct (IH _ Hs) as [a' [b' [E [Ha Hb]]]].
    exists (String d a'), b'. simpl. subst. auto.
Qed.

(** Texts of ASCII characters. *)

Lemma is_ascii_app (a b : string) :
  is_ascii (a ++ b) = is_ascii a && is_ascii b.
Proof.
  induction a as [|c a IH]; simpl; [reflexivity|].
  now rewrite IH, andb_assoc.
Qed.

Lemma is_ascii_parts (pre mid post : string) :
  is_ascii (pre ++ mid ++ post) = true ->
  is_ascii pre = true /\ is_ascii mid = true /\ is_ascii post = true.
Proof.
  rewrite !is_ascii_app, !andb_true_iff. tauto.
Qed.

(** A capital of the table that is an ASCII character is a Latin letter,
    and [toLowerCase] gives its small form. *)
Lemma case_pair_ascii (u l : string) :
  Spec.case_pair u l = true -> is_ascii u = true ->
  toLowerCase u = l /\ toLowerCase l = l.
Proof.
  unfold Spec.case_pair. intros H A.
  apply existsb_exists in H. destruct H as [[u' l'] [Hin Heq]].
  simpl in Heq. apply andb_true_iff in Heq. destruct Heq as [Eu El].
  apply String.eqb_eq in Eu. apply String.eqb_eq in El. subst u' l'.
  unfold Spec.case_pairs, Spec.latin_pairs, Spec.greek_pairs in Hin. simpl in Hin.
  repeat (destruct Hin as [Hin | Hin];
          [injection Hin as <- <-; (split; reflexivity) || discriminate A|]).
  destruct Hin.
Qed.

(** A letter that [lower_ascii] changes is a capital of the table. *)
Lemma lower_ascii_pair (c : ascii) :
  lower_ascii c <> c ->
  Spec.case_pair (String c "") (String (lower_ascii c) "") = true
  /\ c = ascii_of_nat (nat_of_ascii (lower_ascii c) - 32).
Proof.
  destruct c as [[] [] [] [] [] [] [] []]; intros H;
    try (split; reflexivity); exfalso; apply H; reflexivity.
Qed.

Lemma lower_ascii_same (c d : ascii) :
  lower_ascii c = lower_ascii d ->
  c = d
  \/ Spec.case_pair (String c "") (String d "") = true
  \/ Spec.case_pair (String d "") (String c "") = true.
Proof.
  intros E.
  destruct (ascii_dec (lower_ascii c) c) as [Fc | Cc];
    destruct (ascii_dec (lower_ascii d) d) as [Fd | Cd].
  - left. congruence.
  - right. right. destruct (lower_ascii_pair d Cd) as [P _].
    rewrite <- E, Fc in P. exact P.
  - right. left. destruct (lower_ascii_pair c Cc) as [P _].
    rewrite E, Fd in P. exact P.
  - left. destruct (lower_ascii_pair c Cc) as [_ Pc].
    destruct (lower_ascii_pair d Cd) as [_ Pd]. congruence.
Qed.

(** On texts of ASCII characters, two texts are equal ignoring case exactly
    when [toLowerCase] gives the same text for both. *)
Lemma same_ignoring_case_lower (a b : string) :
  is_ascii a = true -> is_ascii b = true ->
  Spec.same_ignoring_case a b <-> toLowerCase a = toLowerCase b.
Proof.
  intros Aa Ab. split.
  - intros H. induction H as [|c s t H IH|u l s t P H IH|u l s t P H IH].
    + reflexivity.
    + simpl in Aa, Ab. apply andb_true_iff in Aa. apply andb_true_iff in Ab.
      simpl. f_equal. apply IH; tauto.
    + rewrite is_ascii_app in Aa, Ab.
      apply andb_true_iff in Aa. apply andb_true_iff in Ab.
      destruct (case_pair_ascii u l P) as [Eu El]; [tauto|].
      rewrite !toLowerCase_app, Eu, El. f_equal. apply IH; tauto.
    + rewrite is_ascii_app in Aa, Ab.
      apply andb_true_iff in Aa. apply andb_true_iff in Ab.
      destruct (case_pair_ascii u l P) as [Eu El]; [tauto|].
      rewrite !toLowerCase_app, Eu, El. f_equal. apply IH; tauto.
  - clear Aa Ab. revert b.
    induction a as [|c a IH]; intros [|d b] H; simpl in H; try discriminate.
    + constructor.
    + injection H as Hc Hs.
      destruct (lower_ascii_same c d Hc) as [-> | [P | P]].
      * apply Spec.sic_same. auto.
      * apply (Spec.sic_small (String c "") (String d "") a b P). auto.
      * apply (Spec.sic_capital (String d "") (String c "") a b P). auto.
Qed.

(** A lower-cased text includes a lower-cased query exactly when the query
    occurs in the text ignoring case, for ASCII texts. *)
Lemma includes_lower_occurs (s q : string) :
  is_ascii s = true -> is_ascii q = true ->
  includes (toLowerCase s) (toLowerCase q) = true <-> Spec.occurs_ignoring_case q s.
Proof.
  intros As Aq.
  rewrite includes_occurs. unfold Spec.occurs_ignoring_case. split.
  - intros [pre [post E]].
    apply toLowerCase_app_inv in E. destruct E as [pre' [r [E1 [Hp Hr]]]].
    apply toLowerCase_app_inv in Hr. destruct Hr as [mid [post' [E2 [Hm Hq]]]].
    exists pre', mid, post'. split; [congruence|].
    subst r. rewrite E1 in As. apply is_ascii_parts in As.
    apply same_ignoring_case_lower; tauto.
  - intros [pre [mid [post [E H]]]].
    rewrite E in As. apply is_ascii_parts in As.
    apply same_ignoring_case_lower in H; [|tauto|tauto].
    exists (toLowerCase pre), (toLowerCase post).
    now rewrite E, !toLowerCase_app, H.
Qed.

(** No letter of the table is the empty text. *)
Lemma case_pair_nonempty (u l : string) :
  Spec.case_pair u l = true -> u <> ""%string /\ l <> ""%string.
Proof.
  unfold Spec.case_pair. intros H.
  apply existsb_exists in H. destruct H as [[u' l'] [Hin Heq]].
  simpl in Heq. apply andb_true_iff in Heq. destruct Heq as [Eu El].
  apply String.eqb_eq in Eu. apply String.eqb_eq in El. subst u' l'.
  unfold Spec.case_pairs, Spec.latin_pairs, Spec.greek_pairs in Hin. simpl in Hin.
  repeat (destruct Hin as [Hin | Hin];
          [injection Hin as <- <-; split; discriminate|]).
  destruct Hin.
Qed.

Lemma same_ignoring_case_empty (a b : string) :
  Spec.same_ignoring_case a b -> a = ""%string -> b = ""%string.
Proof.
  intros H. destruct H as [|c s t H|u l s t P H|u l s t P H]; intros E.
  - reflexivity.
  - discriminate.
  - destruct (case_pair_nonempty u l P) as [Nu _].
    destruct u; [now contradiction Nu | discriminate].
  - destruct (case_pair_nonempty u l P) as [_ Nl].
    destruct l; [now contradiction Nl | discriminate].
Qed.

Lemma occurs_in_empty (q : string) :
  Spec.occurs_ignoring_case q "" -> q = ""%string.
Proof.
  intros [pre [mid [post [E H]]]].
  destruct pre; [|discriminate]. destruct mid; [|discriminate].
  now apply (same_ignoring_case_empty _ _ H).
Qed.

Section SortFacts.

Variable T : Type.
Variable comparefn : T -> T -> Value T.

Lemma insert_Permutation (x : T) (l : list T) :
  Permutation (insert comparefn x l) (x :: l).
Proof.
  induction l as [|y l IH]; simpl; [reflexivity|].
  destruct (0 <? SortCompare comparefn x y); [|reflexivity].
  rewrite IH. apply perm_swap.
Qed.

(** Sorting rearranges: nothing is added, dropped or repeated. *)
Lemma Array_sort_Permutation (l : list T) :
  Permutation (Array_sort comparefn l) l.
Proof.
  induction l as [|x l IH]; simpl; [reflexivity|].
  fold (Array_sort comparefn l). rewrite insert_Permutation. now constructor.
Qed.

(** A comparison function that only separates the elements with [key] from
    those without. *)
Variable key : T -> bool.
Hypothesis compare_key :
  forall a b : T,
    SortCompare comparefn a b =
    if key a && negb (key b) then -1
    else if negb (key a) && key b then 1 else 0.

Lemma insert_keyed (x : T) (l : list T) :
  key x = true -> insert comparefn x l = x :: l.
Proof.
  intros Hx. destruct l as [|y l]; simpl; [reflexivity|].
  rewrite compare_key, Hx. simpl. destruct (key y); reflexivity.
Qed.

Lemma insert_unkeyed (x : T) (front back : list T) :
  key x = false ->
  Forall (fun y => key y = true) front ->
  Forall (fun y => key y = false) back ->
  insert comparefn x (front ++ back) = (front ++ x :: back)%list.
Proof.
  intros Hx Hf Hb. induction Hf as [|y front Hy Hf IH]; simpl.
  - destruct Hb as [|z back Hz Hb]; simpl; [reflexivity|].
    now rewrite compare_key, Hx, Hz.
  - rewrite compare_key, Hx, Hy. simpl. now rewrite IH.
Qed.

(** With such a comparison function the sort is the stable partition. *)
Lemma Array_sort_partition (l : list T) :
  Array_sort comparefn l =
  (filter key l ++ filter (fun y => negb (key y)) l)%list.
Proof.
  induction l as [|x l IH]; simpl; [reflexivity|].
  fold (Array_sort comparefn l). rewrite IH.
  destruct (key x) eqn:Hx; simpl.
  - now apply insert_keyed.
  - apply insert_unkeyed; [exact Hx| |]; apply Forall_forall; intros y Hy;
      apply filter_In in Hy; destruct Hy as [_ Hy];
      [exact Hy | now apply negb_true_iff].
Qed.

End SortFacts.

Section SortedFacts.

Variable T : Type.
Variable comparefn : T -> T -> Value T.

(** An order [le] that the comparison function decides on the elements
    that satisfy [ok]. *)
Variable le : T -> T -> Prop.
Variable ok : T -> Prop.
Hypothesis le_trans :
  forall x y z : T, ok x -> ok y -> ok z -> le x y -> le y z -> le x z.
Hypothesis compare_le :
  forall x y : T, ok x -> ok y ->
    if 0 <? SortCompare comparefn x y then le y x else le x y.

Lemma insert_sorted (x : T) (l : list T) :
  ok x -> Forall ok l -> StronglySorted le l ->
  StronglySorted le (insert comparefn x l).
Proof.
  intros Hx Hok Hs. induction Hs as [|y rest Hs IH Hy]; simpl.
  - constructor; constructor.
  - inversion Hok as [|? ? Hoy Hor]; subst.
    pose proof (compare_le x y Hx Hoy) as C.
    destruct (0 <? SortCompare comparefn x y).
    + constructor; [now apply IH|].
      apply (Permutation_Forall (x := x :: rest)).
      * symmetry. apply insert_Permutation.
      * now constructor.
    + constructor; [now constructor|].
      constructor; [exact C|].
      rewrite Forall_forall in Hy, Hor |- *. intros z Hz.
      apply (le_trans x y z); auto.
Qed.

(** On such elements the sort puts the array in order. *)
Lemma Array_sort_sorted (l : list T) :
  Forall ok l -> StronglySorted le (Array_sort comparefn l).
Proof.
  induction 1 as [|x l Hx Hl IH]; simpl; [constructor|].
  fold (Array_sort comparefn l). apply insert_sorted; auto.
  apply (Permutation_Forall (x := l)); [|exact Hl].
  symmetry. apply Array_sort_Permutation.
Qed.

End SortedFacts.

End JsFacts.

(** ** Properties of the board *)

Module BoardFacts.

Import Js Board Spec JsFacts.

Section ListFacts.

Variable A : Type.
Variable f : A -> bool.

Lemma filter_twice (l : list A) : filter f (filter f l) = filter f l.
Proof.
  induction l as [|x l IH]; simpl; [reflexivity|].
  destruct (f x) eqn:E; simpl; [rewrite E, IH; reflexivity | exact IH].
Qed.

Lemma filter_after_complement (l : list A) :
  filter f (filter (fun x => negb (f x)) l) = [].
Proof.
  induction l as [|x l IH]; simpl; [reflexivity|].
  destruct (f x) eqn:E; simpl; [exact IH | now rewrite E].
Qed.

Lemma filter_complement_after (l : list A) :
  filter (fun x => negb (f x)) (filter f l) = [].
Proof.
  induction l as [|x l IH]; simpl; [reflexivity|].
  destruct (f x) eqn:E; simpl; [now rewrite E | exact IH].
Qed.

End ListFacts.

(** *** Rendering *)

Section RenderFacts.

Variable Date_parse : string -> Num.
Variable toLowerCase : string -> string.

(** What [sortTasksByDueDate] hands back for two tasks is an array with
    elements, whatever the order asked for. *)
Lemma sortTasksByDueDate_pair (a b : Task) (order : string) :
  exists (x : Task) (l : list Task),
    sortTasksByDueDate Date_parse [a; b] order = x :: l.
Proof.
  unfold sortTasksByDueDate. destruct (String.eqb order "none"); [eauto|].
  simpl. destruct (0 <? _); eauto.
Qed.

(** The number that [Array.prototype.sort] reads from [compareColumn]: the
    due dates never reach it. *)
Lemma SortCompare_compareColumn (st : State) (a b : Task) :
  SortCompare (compareColumn Date_parse st) a b =
  if pinned a && negb (pinned b) then -1
  else if negb (pinned a) && pinned b then 1 else 0.
Proof.
  unfold SortCompare, compareColumn.
  destruct (pinned a && negb (pinned b)); [reflexivity|].
  destruct (negb (pinned a) && pinned b); [reflexivity|].
  destruct (negb (String.eqb (sortOrder st) "none")); [|reflexivity].
  destruct (sortTasksByDueDate_pair a b (sortOrder st)) as [x [l ->]].
  reflexivity.
Qed.

(** A column shows its pinned tasks in store order, then its other tasks
    in store order. *)
Lemma columnTasks_partition (st : State) (col : Column) :
  columnTasks Date_parse toLowerCase st col =
  (filter pinned (filter (columnFilter toLowerCase st col) (tasks st))
   ++ filter (fun t => negb (pinned t)) (filter (columnFilter toLowerCase st col) (tasks st)))%list.
Proof.
  unfold columnTasks. apply Array_sort_partition.
  apply SortCompare_compareColumn.
Qed.

Lemma columnTasks_In (st : State) (col : Column) (task : Task) :
  In task (columnTasks Date_parse toLowerCase st col) <->
  In task (tasks st) /\ columnFilter toLowerCase st col task = true.
Proof.
  unfold columnTasks. rewrite <- filter_In. split; apply Permutation_in.
  - apply Array_sort_Permutation.
  - symmetry. apply Array_sort_Permutation.
Qed.

(** The order of a column does not depend on [state.sortOrder]. *)
Lemma columnTasks_sortOrder (st : State) (order : string) (col : Column) :
  columnTasks Date_parse toLowerCase (set_sortOrder st order) col = columnTasks Date_parse toLowerCase st col.
Proof. now rewrite !columnTasks_partition. Qed.

Lemma before_in_partition (front back l1 l2 l3 : list Task) (a b : Task) :
  Forall (fun t => pinned t = true) front ->
  Forall (fun t => pinned t = false) back ->
  (front ++ back = l1 ++ a :: l2 ++ b :: l3)%list ->
  pinned b = true -> pinned a = true.
Proof.
  intros Hf Hb. revert l1. induction Hf as [|p front Hp Hf IH]; intros l1 E Hpb.
  - simpl in E. subst back. rewrite Forall_forall in Hb.
    rewrite Hb in Hpb; [discriminate|].
    apply in_or_app. right. right. apply in_or_app. right. now left.
  - destruct l1 as [|x l1]; simpl in E; injection E as E1 E2.
    + now subst.
    + eauto.
Qed.

(** C4.  In every column and for every value of [sortOrder], the displayed
    list is the pinned tasks of the column's bucket in store order followed
    by its other tasks in store order; so no task that is not pinned is
    displayed before a pinned one, and tasks that agree on [pinned] keep
    their store order. *)
Theorem pinned_first_stable (st : State) (col : Column) :
  let view := columnTasks Date_parse toLowerCase st col in
  let bucket := filter (columnFilter toLowerCase st col) (tasks st) in
  view = (filter pinned bucket ++ filter (fun t => negb (pinned t)) bucket)%list
  /\ (forall a b : Task,
        displayed_before view a b -> pinned b = true -> pinned a = true)
  /\ filter pinned view = filter pinned bucket
  /\ filter (fun t => negb (pinned t)) view = filter (fun t => negb (pinned t)) bucket.
Proof.
  intros view bucket.
  assert (E : view = (filter pinned bucket
                      ++ filter (fun t => negb (pinned t)) bucket)%list)
    by apply columnTasks_partition.
  assert (Hf : Forall (fun t => pinned t = true) (filter pinned bucket)).
  { apply Forall_forall. intros t Ht. now apply filter_In in Ht. }
  assert (Hb : Forall (fun t => pinned t = false)
                      (filter (fun t => negb (pinned t)) bucket)).
  { apply Forall_forall. intros t Ht. apply filter_In in Ht.
    now apply negb_true_iff. }
  split; [exact E|]. split; [|split].
  - intros a b [l1 [l2 [l3 D]]]. rewrite E in D.
    now apply (before_in_partition _ _ _ _ _ _ _ Hf Hb D).
  - rewrite E, filter_app, filter_twice, filter_after_complement.
    apply app_nil_r.
  - rewrite E, filter_app, filter_complement_after.
    now rewrite (filter_twice _ (fun t => negb (pinned t))).
Qed.

Hypothesis lowers : folds_ascii toLowerCase.

Lemma matchesSearch_spec (st : State) (task : Task) :
  is_ascii (filterQuery st) = true ->
  is_ascii (title task) = true ->
  is_ascii (description task) = true ->
  matchesSearch toLowerCase st task = true <->
  filterQuery st = ""%string
  \/ occurs_ignoring_case (filterQuery st) (title task)
  \/ occurs_ignoring_case (filterQuery st) (description task).
Proof.
  intros Aq At Ad. unfold matchesSearch.
  rewrite (lowers _ Aq), (lowers _ At), (lowers _ Ad).
  rewrite !orb_true_iff, andb_true_iff.
  rewrite String.eqb_eq, !includes_lower_occurs by assumption.
  unfold truthy_string. split.
  - tauto.
  - intros [H | [H | H]]; [tauto | tauto |].
    destruct (String.eqb_spec (description task) "") as [E | E].
    + rewrite E in H. apply occurs_in_empty in H. tauto.
    + right. split; [reflexivity | exact H].
Qed.

Lemma matchesPriority_spec (st : State) (task : Task) :
  In (priorityFilter st) priority_filters ->
  is_ascii (priority task) = true ->
  matchesPriority toLowerCase st task = true <->
  priorityFilter st = "all"%string
  \/ same_ignoring_case (priorityFilter st) (priority task).
Proof.
  intros Hpf Ap. unfold matchesPriority. rewrite (lowers _ Ap).
  assert (L : Js.toLowerCase (priorityFilter st) = priorityFilter st
              /\ priorityFilter st <> ""%string
              /\ is_ascii (priorityFilter st) = true).
  { simpl in Hpf.
    destruct Hpf as [<- | [<- | [<- | [<- | []]]]]; repeat split; discriminate. }
  destruct L as [L [N Af]].
  rewrite orb_true_iff, andb_true_iff, !String.eqb_eq.
  rewrite (same_ignoring_case_lower _ _ Af Ap), L.
  unfold truthy_string. split.
  - intros [H | [_ H]]; auto.
  - intros [H | H]; [now left | right]. split; [|now symmetry].
    destruct (String.eqb_spec (priority task) ""); [|reflexivity].
    exfalso. apply N. rewrite H. rewrite e. reflexivity.
Qed.

(** C5, as amended.  For a task whose title, description and priority are
    texts of ASCII characters and a query of ASCII characters, lower-cased
    as the built-in lower-cases such texts: a task of a column's bucket (a
    task of the store whose status is the column's id) is displayed in the
    column exactly when the query is empty or occurs, ignoring case, in its
    title or in its description, and the priority filter is [all] or equals
    its priority ignoring case; the priority filter being one of the values
    the board offers. *)
Theorem column_keeps_matching_tasks (st : State) (col : Column) (task : Task) :
  In (priorityFilter st) priority_filters ->
  In task (tasks st) ->
  status task = col_id col ->
  is_ascii (filterQuery st) = true ->
  is_ascii (title task) = true ->
  is_ascii (description task) = true ->
  is_ascii (priority task) = true ->
  (In task (columnTasks Date_parse toLowerCase st col) <->
   (filterQuery st = ""%string
    \/ occurs_ignoring_case (filterQuery st) (title task)
    \/ occurs_ignoring_case (filterQuery st) (description task))
   /\ (priorityFilter st = "all"%string
       \/ same_ignoring_case (priorityFilter st) (priority task))).
Proof.
  intros Hpf Hin Hst Aq At Ad Ap.
  rewrite columnTasks_In, <- (matchesSearch_spec _ _ Aq At Ad),
    <- (matchesPriority_spec _ _ Hpf Ap).
  unfold columnFilter. rewrite Hst, String.eqb_refl. simpl.
  rewrite andb_true_iff. tauto.
Qed.

(** What [sortTasksByDueDate] does when it is given a whole array. *)

Lemma ascending_trans (x y z : Task) :
  ascending Date_parse x y -> ascending Date_parse y z -> ascending Date_parse x z.
Proof.
  unfold ascending.
  destruct (has_dueDate x), (has_dueDate y), (has_dueDate z); try tauto.
  intros [a [b [Ha [Hb Hab]]]] [b' [c [Hb' [Hc Hbc]]]].
  exists a, c. rewrite Hb in Hb'. injection Hb' as <-. repeat split; auto. lia.
Qed.

Lemma descending_trans (x y z : Task) :
  descending Date_parse x y -> descending Date_parse y z -> descending Date_parse x z.
Proof.
  unfold descending.
  destruct (has_dueDate x), (has_dueDate y), (has_dueDate z); try tauto.
  intros [a [b [Ha [Hb Hab]]]] [b' [c [Hb' [Hc Hbc]]]].
  exists a, c. rewrite Hb in Hb'. injection Hb' as <-. repeat split; auto. lia.
Qed.

Lemma compareDueDate_asc (x y : Task) :
  well_dated Date_parse x -> well_dated Date_parse y ->
  if 0 <? SortCompare (compareDueDate Date_parse "asc") x y
  then ascending Date_parse y x else ascending Date_parse x y.
Proof.
  unfold well_dated, ascending, SortCompare, compareDueDate. intros Hx Hy.
  destruct (has_dueDate x), (has_dueDate y); simpl; auto.
  destruct (Hx eq_refl) as [a Ha]. destruct (Hy eq_refl) as [b Hb].
  rewrite Ha, Hb. simpl. destruct (0 <? a - b) eqn:E.
  - exists b, a. repeat split; auto. apply Z.ltb_lt in E. lia.
  - exists a, b. repeat split; auto. apply Z.ltb_ge in E. lia.
Qed.

Lemma compareDueDate_desc (x y : Task) :
  well_dated Date_parse x -> well_dated Date_parse y ->
  if 0 <? SortCompare (compareDueDate Date_parse "desc") x y
  then descending Date_parse y x else descending Date_parse x y.
Proof.
  unfold well_dated, descending, SortCompare, compareDueDate. intros Hx Hy.
  destruct (has_dueDate x), (has_dueDate y); simpl; auto.
  destruct (Hx eq_refl) as [a Ha]. destruct (Hy eq_refl) as [b Hb].
  rewrite Ha, Hb. simpl. destruct (0 <? b - a) eqn:E.
  - exists b, a. repeat split; auto. apply Z.ltb_lt in E. lia.
  - exists a, b. repeat split; auto. apply Z.ltb_ge in E. lia.
Qed.

(** Given the tasks of a column, [sortTasksByDueDate] returns them by due
    date ascending with the undated tasks last, or descending with the
    undated tasks first: the order that [renderBoard] asks it for. *)
Lemma sortTasksByDueDate_sorts (l : list Task) :
  Forall (well_dated Date_parse) l ->
  (Permutation (sortTasksByDueDate Date_parse l "asc") l
   /\ StronglySorted (ascending Date_parse) (sortTasksByDueDate Date_parse l "asc"))
  /\ (Permutation (sortTasksByDueDate Date_parse l "desc") l
      /\ StronglySorted (descending Date_parse) (sortTasksByDueDate Date_parse l "desc")).
Proof.
  intros H. unfold sortTasksByDueDate. simpl. split; split.
  - apply Array_sort_Permutation.
  - apply (Array_sort_sorted _ _ _ (well_dated Date_parse)); [| |exact H].
    + intros x y z _ _ _. apply ascending_trans.
    + apply compareDueDate_asc.
  - apply Array_sort_Permutation.
  - apply (Array_sort_sorted _ _ _ (well_dated Date_parse)); [| |exact H].
    + intros x y z _ _ _. apply descending_trans.
    + apply compareDueDate_desc.
Qed.

End RenderFacts.

(** *** The sort order *)

(** C1.  On a column that holds a task due on 2024-06-01 stored before a
    task due on 2024-01-01, with [sortOrder] set to [asc], the column shows
    the June task first, although [sortTasksByDueDate] would put the
    January task first; with [desc] it shows the same order; and a task
    without a due date stored first is shown before a dated one under
    [asc]. *)
Theorem due_date_order_not_applied (Date_parse : string -> Num)
        (toLowerCase : string -> string) :
  columnTasks Date_parse toLowerCase (Examples.board [Examples.june; Examples.january] "asc") Todo
  = [Examples.june; Examples.january]
  /\ sortTasksByDueDate Date_parse [Examples.june; Examples.january] "asc"
     = [Examples.january; Examples.june]
  /\ columnTasks Date_parse toLowerCase (Examples.board [Examples.june; Examples.january] "desc") Todo
     = columnTasks Date_parse toLowerCase (Examples.board [Examples.june; Examples.january] "asc") Todo
  /\ columnTasks Date_parse toLowerCase (Examples.board [Examples.undated; Examples.january] "asc") Todo
     = [Examples.undated; Examples.january].
Proof.
  rewrite !columnTasks_partition. repeat split; reflexivity.
Qed.

(** C9.  [toggleSortOrder] takes [none] to [asc], [asc] to [desc] and
    [desc] to [none], and changes nothing else of the state: the tasks, the
    filters, the undo register and the toasts are as before. *)
Theorem toggleSortOrder_cycle (st : State) :
  sortOrder (toggleSortOrder (set_sortOrder st "none")) = "asc"%string
  /\ sortOrder (toggleSortOrder (set_sortOrder st "asc")) = "desc"%string
  /\ sortOrder (toggleSortOrder (set_sortOrder st "desc")) = "none"%string
  /\ tasks (toggleSortOrder st) = tasks st
  /\ filterQuery (toggleSortOrder st) = filterQuery st
  /\ priorityFilter (toggleSortOrder st) = priorityFilter st
  /\ lastDeletedTask (toggleSortOrder st) = lastDeletedTask st
  /\ toasts (toggleSortOrder st) = toasts st.
Proof.
  repeat split; reflexivity.
Qed.

(** *** Finding a task and assigning to it *)

Lemma find_task_missing (i : string) (l : list Task) :
  ~ In i (map id l) -> find_task i l = None.
Proof.
  unfold find_task. induction l as [|t l IH]; simpl; [reflexivity|].
  intros H. destruct (String.eqb_spec (id t) i) as [E | E].
  - exfalso. apply H. now left.
  - apply IH. intros H'. apply H. now right.
Qed.

Lemma find_task_present (i : string) (l : list Task) :
  In i (map id l) -> exists t : Task, find_task i l = Some t.
Proof.
  unfold find_task. induction l as [|t l IH]; simpl; [tauto|].
  intros [E | H].
  - exists t. now rewrite E, String.eqb_refl.
  - destruct (String.eqb (id t) i); eauto.
Qed.

(** The task that [find] returns is the first one with the id. *)
Lemma find_task_split (i : string) (l : list Task) (t : Task) :
  find_task i l = Some t ->
  exists before after : list Task,
    l = (before ++ t :: after)%list
    /\ Forall (fun u => id u <> i) before
    /\ id t = i.
Proof.
  unfold find_task. induction l as [|u l IH]; simpl; [discriminate|].
  destruct (String.eqb_spec (id u) i) as [E | E].
  - intros [= ->]. exists [], l. auto.
  - intros H. destruct (IH H) as [before [after [-> [Hb Ht]]]].
    exists (u :: before), after. auto.
Qed.

Lemma assign_split (i : string) (f : Task -> Task) (before after : list Task) (t : Task) :
  Forall (fun u => id u <> i) before ->
  id t = i ->
  assign i f (before ++ t :: after) = (before ++ f t :: after)%list.
Proof.
  intros Hb Ht. induction Hb as [|u before Hu Hb IH]; simpl.
  - now rewrite Ht, String.eqb_refl.
  - apply String.eqb_neq in Hu. now rewrite Hu, IH.
Qed.



(** *** Mutations that name a task *)

(** C7.  When no task of the store has id [i], a status update, a drop, a
    pin toggle, a duplication and a deletion that name [i] all return the
    state they were given: task list, undo register and toasts are
    unchanged. *)
Theorem missing_id_is_noop (st : State) (i s : string) (zone : Column)
        (now now_id now_created now_updated : Z) :
  ~ In i (map id (tasks st)) ->
  updateTaskStatus i s st = st
  /\ drop zone i st = st
  /\ togglePin i st = st
  /\ duplicateTask i now_id now_created now_updated st = st
  /\ deleteTask i now st = st.
Proof.
  intros H. apply find_task_missing in H.
  unfold drop, updateTaskStatus, togglePin, duplicateTask, deleteTask.
  rewrite H. auto.
Qed.


(** A numeral printed by [Number_toString] denotes the number printed. *)
Lemma numeral_value_toString (n : Z) :
  numeral_value (Number_toString n) = Some n.
Proof.
  unfold numeral_value, Number_toString.
  rewrite NilZero.isi.
  - simpl. now rewrite DecimalZ.of_to.
  - destruct n; simpl; intros [= E]; try discriminate E;
      now apply Unsigned.to_uint_nonnil in E.
  - destruct n; simpl; intros [= E];
      now apply Unsigned.to_uint_nonnil in E.
Qed.

Lemma Number_toString_injective (n m : Z) :
  Number_toString n = Number_toString m -> n = m.
Proof.
  intros E. assert (H := numeral_value_toString n).
  rewrite E, numeral_value_toString in H. now injection H.
Qed.

(** C10, as amended.  For a task [t] found by id [i], [duplicateTask] puts
    exactly one new task in front of the store and leaves the rest of the
    store and of the state as they were.  The new task has as id the decimal
    numeral of the clock reading, which differs from the numeral of every
    other reading, and the later readings as [createdAt] and [updatedAt];
    its title is the title of [t], with the suffix [ (Copy)] unless the
    title contains it already; its other fields, subtasks and files
    included, equal those of [t].  The id is new to the store exactly when
    no task has the numeral of the clock reading as id: then it differs from
    the id of [t] and unique ids stay unique, and otherwise the store ends
    with a repeated id. *)
Theorem duplicateTask_adds_copy (st : State) (i : string) (t : Task)
        (now_id now_created now_updated : Z) :
  find_task i (tasks st) = Some t ->
  exists copy : Task,
    duplicateTask i now_id now_created now_updated st = set_tasks st (copy :: tasks st)
    /\ List.length (tasks (duplicateTask i now_id now_created now_updated st))
       = S (List.length (tasks st))
    /\ id copy = Number_toString now_id
    /\ numeral_value (id copy) = Some now_id
    /\ (forall n : Z, n <> now_id -> id copy <> Number_toString n)
    /\ createdAt copy = Finite now_created
    /\ updatedAt copy = Some now_updated
    /\ title copy = (if includes (title t) " (Copy)" then title t
                     else title t ++ " (Copy)")%string
    /\ description copy = description t
    /\ status copy = status t
    /\ priority copy = priority t
    /\ dueDate copy = dueDate t
    /\ pinned copy = pinned t
    /\ subtasks copy = subtasks t
    /\ files copy = files t
    /\ (~ In (Number_toString now_id) (map id (tasks st)) ->
        ~ In (id copy) (map id (tasks st))
        /\ id copy <> id t
        /\ (unique_ids (tasks st) ->
            unique_ids (tasks (duplicateTask i now_id now_created now_updated st))))
    /\ (In (Number_toString now_id) (map id (tasks st)) ->
        ~ unique_ids (tasks (duplicateTask i now_id now_created now_updated st))).
Proof.
  intros H. unfold duplicateTask. rewrite H.
  exists (duplicateOf t now_id now_created now_updated).
  unfold duplicateOf. simpl.
  repeat (split; [reflexivity|]).
  split; [apply numeral_value_toString|].
  split; [intros n Hn E; apply Hn; symmetry; now apply Number_toString_injective|].
  repeat (split; [reflexivity|]).
  split; [now destruct (includes (title t) " (Copy)")|].
  repeat (split; [reflexivity|]).
  split.
  - intros Hfresh. split; [exact Hfresh|]. split.
    + intros E. apply Hfresh. rewrite E. apply in_map.
      unfold find_task in H. apply find_some in H. tauto.
    + intros Hu. unfold unique_ids. simpl. now constructor.
  - intros Hold Hu. unfold unique_ids in Hu. simpl in Hu.
    apply NoDup_cons_iff in Hu. tauto.
Qed.

(** *** Delete and undo *)

Lemma nth_error_last (A : Type) (l : list A) (x : A) (rest : list A) :
  nth_error (l ++ x :: rest) (List.length l) = Some x.
Proof. induction l as [|y l IH]; simpl; [reflexivity | exact IH]. Qed.

Lemma remove_nth_last (A : Type) (l : list A) (x : A) (rest : list A) :
  remove_nth (List.length l) (l ++ x :: rest) = (l ++ rest)%list.
Proof. induction l as [|y l IH]; simpl; [reflexivity | now rewrite IH]. Qed.

Lemma filter_keeps_all (A : Type) (f : A -> bool) (l : list A) :
  Forall (fun x => f x = true) l -> filter f l = l.
Proof.
  induction 1 as [|x l Hx Hl IH]; simpl; [reflexivity|]. now rewrite Hx, IH.
Qed.

Lemma other_ids (i : string) (l : list Task) :
  ~ In i (map id l) ->
  Forall (fun task => negb (String.eqb (id task) i) = true) l.
Proof.
  intros H. apply Forall_forall. intros u Hu. apply negb_true_iff.
  apply String.eqb_neq. intros E. apply H. rewrite <- E. now apply in_map.
Qed.

(** When one task has the id, filtering the id out removes that task
    only. *)
Lemma filter_out_single (i : string) (before after : list Task) (t : Task) :
  Forall (fun u => id u <> i) before ->
  id t = i ->
  only_task_with_id i (before ++ t :: after) ->
  filter (fun task => negb (String.eqb (id task) i)) (before ++ t :: after)
  = (before ++ after)%list.
Proof.
  unfold only_task_with_id. intros Hb Ht Hone.
  assert (Fb : Forall (fun task => negb (String.eqb (id task) i) = true) before).
  { apply Forall_forall. intros u Hu. rewrite Forall_forall in Hb.
    apply negb_true_iff, String.eqb_neq. now apply Hb. }
  assert (Fa : Forall (fun task => negb (String.eqb (id task) i) = true) after).
  { rewrite filter_app in Hone. simpl in Hone.
    rewrite Ht, String.eqb_refl, length_app in Hone. simpl in Hone.
    apply Forall_forall. intros u Hu. apply negb_true_iff.
    destruct (String.eqb (id u) i) eqn:E; [exfalso | reflexivity].
    assert (Hin : In u (filter (fun u => String.eqb (id u) i) after))
      by (apply filter_In; auto).
    destruct (filter (fun u => String.eqb (id u) i) after);
      [destruct Hin | simpl in Hone; lia]. }
  rewrite filter_app. simpl. rewrite Ht, String.eqb_refl. simpl.
  now rewrite !filter_keeps_all.
Qed.

Lemma filter_lengths (A : Type) (f : A -> bool) (l : list A) :
  (List.length (filter f l) + List.length (filter (fun x => negb (f x)) l)
   = List.length l)%nat.
Proof.
  induction l as [|x l IH]; simpl; [reflexivity|].
  destruct (f x); simpl; lia.
Qed.

(** With unique ids, the task that [find] returns is the only one with its
    id. *)
Lemma unique_ids_only_task (i : string) (l : list Task) (t : Task) :
  unique_ids l -> find_task i l = Some t -> only_task_with_id i l.
Proof.
  unfold unique_ids, only_task_with_id. intros Hu H.
  destruct (find_task_split _ _ _ H) as [before [after [E [Hb Ht]]]].
  subst l. rewrite map_app in Hu. simpl in Hu.
  apply NoDup_remove_2 in Hu. rewrite Ht in Hu.
  assert (N : forall part : list Task,
             ~ In i (map id part) ->
             filter (fun u => String.eqb (id u) i) part = []).
  { intros part Hp. induction part as [|u part IH]; simpl; [reflexivity|].
    destruct (String.eqb_spec (id u) i) as [Eq | Ne].
    - exfalso. apply Hp. simpl. auto.
    - apply IH. intros Hin. apply Hp. simpl. auto. }
  rewrite filter_app. simpl. rewrite Ht, String.eqb_refl.
  rewrite !N; [reflexivity | |]; intros Hin; apply Hu; apply in_or_app; auto.
Qed.

Lemma filter_out_id (i : string) (l : list Task) :
  ~ In i (map id (filter (fun task => negb (String.eqb (id task) i)) l)).
Proof.
  rewrite in_map_iff. intros [u [E Hu]]. apply filter_In in Hu.
  destruct Hu as [_ Hu]. apply negb_true_iff, String.eqb_neq in Hu. auto.
Qed.

(** What [deleteTask] does when it finds the task. *)
Lemma deleteTask_found (st : State) (i : string) (t : Task) (now : Z) :
  find_task i (tasks st) = Some t ->
  deleteTask i now st =
  mkState (filter (fun task => negb (String.eqb (id task) i)) (tasks st))
          (filterQuery st) (priorityFilter st) (sortOrder st)
          (Some (mkDeleted t now)) (toasts st ++ [UndoDelete]).
Proof. intros H. unfold deleteTask. now rewrite H. Qed.

Lemma toasts_runUndo (a : UndoAction) (st : State) :
  toasts (runUndo a st) = toasts st.
Proof. destruct a; simpl; [destruct (lastDeletedTask st)|]; reflexivity. Qed.

(** A click on the undo button of a known toast. *)
Lemma clickUndo_at (st : State) (before after : list UndoAction) (a : UndoAction) :
  toasts st = (before ++ a :: after)%list ->
  clickUndo (List.length before) st = set_toasts (runUndo a st) (before ++ after).
Proof.
  intros H. unfold clickUndo, hideToast.
  now rewrite H, nth_error_last, toasts_runUndo, H, remove_nth_last.
Qed.

Lemma runUndo_delete_full (st : State) (d : DeletedTask) :
  lastDeletedTask st = Some d ->
  runUndo UndoDelete st
  = set_lastDeletedTask (set_tasks st (tasks st ++ [snapshot d])) None.
Proof. intros H. simpl. now rewrite H. Qed.

Lemma runUndo_delete_empty (st : State) :
  lastDeletedTask st = None -> runUndo UndoDelete st = st.
Proof. intros H. simpl. now rewrite H. Qed.

(** C6, as amended.  For a task [t] found by id [i]: [deleteTask] puts
    [t], whole, with the deletion time in the register and leaves no task
    with id [i] in the store; the undo of the toast it shows then puts [t]
    itself, without the deletion time, at the end of the store, empties the
    register, and leaves the toasts as they were before the deletion.  The
    store then has the same tasks as before the deletion exactly when [t]
    was the only task with id [i], as it is in a store with unique ids. *)
Theorem delete_then_undo (st : State) (i : string) (t : Task) (now : Z) :
  find_task i (tasks st) = Some t ->
  let deleted := deleteTask i now st in
  let undone := clickUndo (List.length (toasts st)) deleted in
  lastDeletedTask deleted = Some (mkDeleted t now)
  /\ ~ In i (map id (tasks deleted))
  /\ nth_error (toasts deleted) (List.length (toasts st)) = Some UndoDelete
  /\ tasks undone = (tasks deleted ++ [t])%list
  /\ (Permutation (tasks undone) (tasks st) <-> only_task_with_id i (tasks st))
  /\ (unique_ids (tasks st) -> Permutation (tasks undone) (tasks st))
  /\ lastDeletedTask undone = None
  /\ toasts undone = toasts st.
Proof.
  intros H deleted undone.
  assert (D : deleted = deleteTask i now st) by reflexivity.
  rewrite (deleteTask_found _ _ _ _ H) in D.
  assert (U : undone
              = set_toasts (runUndo UndoDelete deleted) (toasts st ++ [])).
  { apply clickUndo_at. now rewrite D. }
  rewrite (runUndo_delete_full _ (mkDeleted t now)) in U by now rewrite D.
  assert (P : only_task_with_id i (tasks st) ->
              Permutation (tasks undone) (tasks st)).
  { intros Hone. rewrite U, D. simpl.
    destruct (find_task_split _ _ _ H) as [before [after [E [Hb Ht]]]].
    rewrite E in Hone |- *. rewrite (filter_out_single _ _ _ _ Hb Ht Hone).
    rewrite <- app_assoc. apply Permutation_app_head.
    symmetry. apply Permutation_cons_append. }
  split; [rewrite D; reflexivity|].
  split; [rewrite D; apply filter_out_id|].
  split; [rewrite D; apply nth_error_last|].
  split; [rewrite U, D; reflexivity|].
  split; [|split; [|split]].
  - split; [|exact P].
    intros Hp. apply Permutation_length in Hp. rewrite U, D in Hp.
    simpl in Hp. rewrite length_app in Hp. simpl in Hp.
    unfold only_task_with_id.
    assert (L := filter_lengths _ (fun u => String.eqb (id u) i) (tasks st)).
    simpl in L. lia.
  - intros Hu. apply P. now apply (unique_ids_only_task _ _ t).
  - rewrite U. reflexivity.
  - rewrite U. simpl. apply app_nil_r.
Qed.

(** C2, as amended.  After two deletions in a row the register holds the
    second task only.  Whichever of the two toasts has its undo clicked
    first, the store gets the second task back and the register is
    emptied; the undo of the other toast, then at the position of the
    first, changes the store no more.  [clearBoard] leaves the register as
    it is and keeps the cleared tasks in the undo action of its own toast,
    which gives them back to the store. *)
Theorem second_delete_overwrites_first (st : State) (i1 i2 : string) (t1 t2 : Task)
        (n1 n2 : Z) :
  find_task i1 (tasks st) = Some t1 ->
  find_task i2 (tasks (deleteTask i1 n1 st)) = Some t2 ->
  let st1 := deleteTask i1 n1 st in
  let st2 := deleteTask i2 n2 st1 in
  let k := List.length (toasts st) in
  lastDeletedTask st1 = Some (mkDeleted t1 n1)
  /\ lastDeletedTask st2 = Some (mkDeleted t2 n2)
  /\ (forall first : nat,
        In first [k; S k] ->
        tasks (clickUndo first st2) = (tasks st2 ++ [t2])%list
        /\ lastDeletedTask (clickUndo first st2) = None
        /\ tasks (clickUndo k (clickUndo first st2)) = (tasks st2 ++ [t2])%list)
  /\ lastDeletedTask (clearBoard st2) = lastDeletedTask st2
  /\ toasts (clearBoard st2) = (toasts st2 ++ [UndoClear (tasks st2)])%list
  /\ tasks (runUndo (UndoClear (tasks st2)) (clearBoard st2)) = tasks st2.
Proof.
  intros H1 H2 st1 st2 k.
  assert (D1 : st1 = deleteTask i1 n1 st) by reflexivity.
  rewrite (deleteTask_found _ _ _ _ H1) in D1.
  assert (D2 : st2 = deleteTask i2 n2 st1) by reflexivity.
  rewrite (deleteTask_found _ _ _ _ H2) in D2. fold st1 in D2.
  assert (T1 : toasts st1 = (toasts st ++ [UndoDelete])%list) by now rewrite D1.
  assert (T2 : toasts st2 = ((toasts st ++ [UndoDelete]) ++ [UndoDelete])%list)
    by now rewrite D2, T1.
  assert (R2 : lastDeletedTask st2 = Some (mkDeleted t2 n2)) by now rewrite D2.
  split; [now rewrite D1|]. split; [exact R2|].
  split; [|split; [reflexivity | split; reflexivity]].
  assert (C : forall rest : list UndoAction,
             let s := set_toasts (runUndo UndoDelete st2)
                                 (toasts st ++ UndoDelete :: rest) in
             tasks s = (tasks st2 ++ [t2])%list
             /\ lastDeletedTask s = None
             /\ tasks (clickUndo k s) = (tasks st2 ++ [t2])%list).
  { intros rest s. subst s. rewrite (runUndo_delete_full _ _ R2).
    split; [reflexivity|]. split; [reflexivity|].
    unfold k. erewrite clickUndo_at by reflexivity.
    now rewrite runUndo_delete_empty. }
  intros first [<- | [<- | []]].
  - unfold k. rewrite (clickUndo_at st2 (toasts st) [UndoDelete] UndoDelete)
      by now rewrite T2, <- app_assoc.
    apply (C []).
  - replace (S k) with (List.length (toasts st ++ [UndoDelete]))
      by (rewrite length_app; simpl; unfold k; lia).
    rewrite (clickUndo_at st2 (toasts st ++ [UndoDelete]) [] UndoDelete)
      by now rewrite T2.
    rewrite app_nil_r. apply (C []).
Qed.

(** *** The status invariant *)

Lemma col_id_valid (c : Column) : valid_status (col_id c).
Proof. unfold valid_status. destruct c; simpl; auto. Qed.

Lemma find_task_In (i : string) (l : list Task) (t : Task) :
  find_task i l = Some t -> In t l.
Proof. intros H. now apply find_some in H. Qed.

Lemma assign_Forall (P : Task -> Prop) (i : string) (f : Task -> Task) (l : list Task) :
  (forall t : Task, P t -> P (f t)) ->
  Forall P l -> Forall P (assign i f l).
Proof.
  intros Hf. induction 1 as [|t l Ht Hl IH]; simpl; [constructor|].
  destruct (String.eqb (id t) i); constructor; auto.
Qed.

Lemma remove_nth_Forall (A : Type) (P : A -> Prop) (n : nat) (l : list A) :
  Forall P l -> Forall P (remove_nth n l).
Proof.
  intros H. revert n. induction H as [|x l Hx Hl IH]; intros n; simpl.
  - constructor.
  - destruct n; [exact Hl | constructor; auto].
Qed.

Lemma filter_Forall (A : Type) (P : A -> Prop) (f : A -> bool) (l : list A) :
  Forall P l -> Forall P (filter f l).
Proof.
  induction 1 as [|x l Hx Hl IH]; simpl; [constructor|].
  destruct (f x); [constructor|]; auto.
Qed.

Lemma taskOfDoc_status (d : RemoteDoc) (now : Z) :
  status (taskOfDoc d now) = doc_status d.
Proof. reflexivity. Qed.

Section Invariant.

Variable Date_parse : string -> Num.
Variable trim : string -> string.

Ltac split_valid H :=
  destruct H as [Ht [Hr Hto]]; unfold state_valid; simpl;
  split; [|split]; auto.

Lemma runUndo_valid (a : UndoAction) (st : State) :
  state_valid st ->
  match a with
  | UndoDelete => True
  | UndoClear previousTasks => statuses_valid previousTasks
  end ->
  state_valid (runUndo a st).
Proof.
  intros H Ha. destruct a as [|prev]; simpl.
  - destruct (lastDeletedTask st) as [d|] eqn:E; [|exact H].
    split_valid H.
    + apply Forall_app. split; [exact Ht|]. constructor; [|constructor]. auto.
    + discriminate.
  - split_valid H.
Qed.

Lemma hideToast_valid (n : nat) (st : State) :
  state_valid st -> state_valid (hideToast n st).
Proof. intros H. split_valid H. now apply remove_nth_Forall. Qed.

(** Each event keeps the invariant, given that the statuses it brings in
    are column ids. *)
Lemma handle_valid (e : Event) (st : State) :
  brings_valid_status e ->
  state_valid st ->
  state_valid (handle Date_parse trim e st).
Proof.
  intros He H. destruct e; simpl in *.
  - (* the load begins *)
    split_valid H. constructor.
  - (* the load ends *)
    split_valid H. apply Forall_app. split; [exact Ht|].
    apply Forall_map. eapply Forall_impl; [|exact He]. auto.
  - (* a form is submitted *)
    unfold handleFormSubmit.
    destruct (find_task _ (tasks st)); split_valid H.
    + apply assign_Forall; auto.
    + apply Forall_app. split; [exact Ht|]. constructor; [exact He | constructor].
  - (* a card is dropped *)
    unfold drop, updateTaskStatus.
    destruct (find_task taskId (tasks st)); [|exact H]. split_valid H.
    apply assign_Forall; [|exact Ht]. intros u _. apply col_id_valid.
  - (* a pin is toggled *)
    unfold togglePin.
    destruct (find_task i (tasks st)); [|exact H]. split_valid H.
    apply assign_Forall; auto.
  - (* a task is duplicated *)
    unfold duplicateTask.
    destruct (find_task i (tasks st)) as [u|] eqn:E; [|exact H]. split_valid H.
    constructor; [|exact Ht]. simpl.
    apply find_task_In in E. unfold statuses_valid in Ht.
    rewrite Forall_forall in Ht. auto.
  - (* a task is deleted *)
    unfold deleteTask.
    destruct (find_task i (tasks st)) as [u|] eqn:E; [|exact H]. split_valid H.
    + now apply filter_Forall.
    + intros d [= <-]. simpl. apply find_task_In in E.
      unfold statuses_valid in Ht. rewrite Forall_forall in Ht. auto.
    + apply Forall_app. split; [exact Hto|]. constructor; [exact I | constructor].
  - (* the board is cleared *)
    split_valid H; [constructor|].
    apply Forall_app. split; [exact Hto|]. constructor; [exact Ht | constructor].
  - (* an undo button is clicked *)
    unfold clickUndo. destruct (nth_error (toasts st) n) as [a|] eqn:E; [|exact H].
    apply hideToast_valid, runUndo_valid; [exact H|].
    apply nth_error_In in E. destruct H as [_ [_ Hto]].
    rewrite Forall_forall in Hto. now apply (Hto a).
  - (* a toast leaves the screen *)
    now apply hideToast_valid.
  - (* the sort order is toggled *)
    split_valid H.
  - (* the search text changes *)
    split_valid H.
  - (* the priority filter changes *)
    split_valid H.
  - (* files are dropped *)
    unfold handleFileDrop. destruct dropped as [|first rest]; [exact H|].
    destruct (match taskId with
              | Some i => if truthy_string i then find_task i (tasks st) else None
              | None => None
              end); split_valid H.
    + apply assign_Forall; auto.
    + apply Forall_app. split; [exact Ht|].
      constructor; [apply (col_id_valid Todo) | constructor].
Qed.

Lemma run_valid (es : list Event) (st : State) :
  Forall brings_valid_status es ->
  state_valid st ->
  state_valid (run Date_parse trim es st).
Proof.
  intros Hes. revert st. induction Hes as [|e es He Hes IH]; intros st H.
  - exact H.
  - apply IH. now apply handle_valid.
Qed.

Lemma initial_valid : state_valid initial.
Proof.
  unfold state_valid. simpl. split; [constructor|].
  split; [discriminate | constructor].
Qed.

(** C3, as amended.  After any sequence of events from the initial board
    in which every submitted form carries a column id in its status field
    and every loaded remote document has a column id as status, every task
    of the store has its status in the fixed set. *)
Theorem status_in_fixed_set (es : list Event) (t : Task) :
  Forall brings_valid_status es ->
  In t (tasks (run Date_parse trim es initial)) ->
  valid_status (status t).
Proof.
  intros Hes Hin.
  destruct (run_valid es initial Hes initial_valid) as [Ht _].
  unfold statuses_valid in Ht. rewrite Forall_forall in Ht. auto.
Qed.

End Invariant.

(** *** Instances on example boards *)

Section Instances.

Import Examples.

Lemma unique_ids_two_tasks : unique_ids (tasks two_tasks).
Proof.
  unfold unique_ids. simpl. repeat constructor; simpl; intuition discriminate.
Defined.

(** [toLowerCase] is the built-in on ASCII texts. *)
Lemma toLowerCase_folds_ascii : folds_ascii toLowerCase.
Proof. intros s _. reflexivity. Defined.

(** The query [REP] and the filter [medium] on a board that holds the
    task titled [Report], of medium priority. *)
Lemma column_keeps_matching_tasks_witness :
  folds_ascii toLowerCase
  /\ In (priorityFilter searching) priority_filters
  /\ In june (tasks searching)
  /\ status june = col_id Todo
  /\ is_ascii (filterQuery searching) = true
  /\ is_ascii (title june) = true
  /\ is_ascii (description june) = true
  /\ is_ascii (priority june) = true
  /\ (In june (columnTasks unparsed toLowerCase searching Todo) <->
      (filterQuery searching = ""%string
       \/ occurs_ignoring_case (filterQuery searching) (title june)
       \/ occurs_ignoring_case (filterQuery searching) (description june))
      /\ (priorityFilter searching = "all"%string
          \/ same_ignoring_case (priorityFilter searching) (priority june))).
Proof.
  assert (H1 : In (priorityFilter searching) priority_filters)
    by (simpl; auto).
  assert (H2 : In june (tasks searching)) by (simpl; auto).
  assert (H3 : status june = col_id Todo) by reflexivity.
  split; [exact toLowerCase_folds_ascii|].
  split; [exact H1|]. split; [exact H2|]. split; [exact H3|].
  repeat (split; [reflexivity|]).
  exact (column_keeps_matching_tasks unparsed toLowerCase toLowerCase_folds_ascii
           searching Todo june H1 H2 H3 eq_refl eq_refl eq_refl eq_refl).
Defined.

(** The January task is deleted and restored on a board of two tasks. *)
Lemma delete_then_undo_witness :
  find_task "2" (tasks two_tasks) = Some january
  /\ lastDeletedTask (deleteTask "2" 5 two_tasks) = Some (mkDeleted january 5)
  /\ ~ In "2"%string (map id (tasks (deleteTask "2" 5 two_tasks)))
  /\ tasks (clickUndo 0 (deleteTask "2" 5 two_tasks)) = [june; january]
  /\ (Permutation (tasks (clickUndo 0 (deleteTask "2" 5 two_tasks))) (tasks two_tasks)
      <-> only_task_with_id "2" (tasks two_tasks))
  /\ lastDeletedTask (clickUndo 0 (deleteTask "2" 5 two_tasks)) = None.
Proof.
  assert (H : find_task "2" (tasks two_tasks) = Some january) by reflexivity.
  split; [exact H|].
  destruct (delete_then_undo two_tasks "2" january 5 H)
    as [R [N [_ [T [P [_ [E _]]]]]]].
  split; [exact R|]. split; [exact N|]. split; [exact T|].
  split; [exact P | exact E].
Defined.

(** No task of the board has id [9]. *)
Lemma missing_id_is_noop_witness :
  ~ In "9"%string (map id (tasks two_tasks))
  /\ updateTaskStatus "9" "done" two_tasks = two_tasks
  /\ drop Done "9" two_tasks = two_tasks
  /\ togglePin "9" two_tasks = two_tasks
  /\ duplicateTask "9" 6 7 8 two_tasks = two_tasks
  /\ deleteTask "9" 5 two_tasks = two_tasks.
Proof.
  assert (H : ~ In "9"%string (map id (tasks two_tasks)))
    by (simpl; intuition discriminate).
  split; [exact H|].
  exact (missing_id_is_noop two_tasks "9" "done" Done 5 6 7 8 H).
Defined.


(** The June task is duplicated at clock readings 7, 8 and 9: no task of
    the board has the id 7. *)
Lemma duplicateTask_adds_copy_witness :
  find_task "1" (tasks two_tasks) = Some june
  /\ exists copy : Task,
       duplicateTask "1" 7 8 9 two_tasks = set_tasks two_tasks (copy :: tasks two_tasks)
       /\ id copy = "7"%string
       /\ numeral_value (id copy) = Some 7
       /\ title copy = "Report (Copy)"%string
       /\ createdAt copy = Finite 8
       /\ updatedAt copy = Some 9
       /\ dueDate copy = dueDate june
       /\ ~ In (id copy) (map id (tasks two_tasks))
       /\ unique_ids (tasks (duplicateTask "1" 7 8 9 two_tasks)).
Proof.
  assert (H : find_task "1" (tasks two_tasks) = Some june) by reflexivity.
  split; [exact H|].
  destruct (duplicateTask_adds_copy two_tasks "1" june 7 8 9 H)
    as (copy & E & _ & Hi & Hv & _ & Hc & Hu & Ht & _ & _ & _ & Hd & _ & _ & _ & F & _).
  assert (N : ~ In (Number_toString 7) (map id (tasks two_tasks)))
    by (simpl; intuition discriminate).
  destruct (F N) as [F1 [_ F3]].
  exists copy. repeat split; try assumption.
  apply F3. exact unique_ids_two_tasks.
Defined.

(** The June task, then the January task are deleted; both toasts are
    clicked, the older one first. *)
Lemma second_delete_overwrites_first_witness :
  find_task "1" (tasks three_tasks) = Some june
  /\ find_task "2" (tasks (deleteTask "1" 5 three_tasks)) = Some january
  /\ lastDeletedTask (deleteTask "2" 6 (deleteTask "1" 5 three_tasks))
     = Some (mkDeleted january 6)
  /\ tasks (clickUndo 0 (clickUndo 0 (deleteTask "2" 6 (deleteTask "1" 5 three_tasks))))
     = [undated; january].
Proof.
  assert (H1 : find_task "1" (tasks three_tasks) = Some june) by reflexivity.
  assert (H2 : find_task "2" (tasks (deleteTask "1" 5 three_tasks)) = Some january)
    by reflexivity.
  split; [exact H1|]. split; [exact H2|].
  destruct (second_delete_overwrites_first three_tasks "1" "2" june january 5 6 H1 H2)
    as [_ [R [C _]]].
  split; [exact R|].
  exact (proj2 (proj2 (C 0%nat (or_introl eq_refl)))).
Defined.

(** A load of a valid document, a form, a drop, a delete and its undo. *)
Lemma status_in_fixed_set_witness :
  Forall brings_valid_status session
  /\ In (set_status (taskOfDoc todo_doc 1700000000001) "done")
        (tasks (run unparsed trim session initial))
  /\ valid_status (status (set_status (taskOfDoc todo_doc 1700000000001) "done")).
Proof.
  assert (H1 : Forall brings_valid_status session).
  { unfold session.
    repeat first [apply Forall_nil | apply Forall_cons];
      try exact I; vm_compute; auto 10. }
  assert (H2 : In (set_status (taskOfDoc todo_doc 1700000000001) "done")
                  (tasks (run unparsed trim session initial))).
  { right. left. reflexivity. }
  split; [exact H1|]. split; [exact H2|].
  exact (status_in_fixed_set unparsed trim session _ H1 H2).
Defined.

(** C2, as stated, fails: the June task is deleted, the board is cleared,
    and the undo of the clear followed by the undo of the delete brings
    back both the cleared task and the deleted one. *)
Lemma delete_and_clear_both_restored :
  ~ at_most_one_restored two_tasks "1" 5.
Proof.
  intros H. apply (H june [1; 0]%nat eq_refl).
  split; (split; [discriminate | intros x [<- | []]; simpl; auto]).
Qed.

(** C3, as stated, fails: a remote document whose status is [archived]
    is loaded as a task with that status. *)
Lemma remote_status_unchecked :
  ~ status_always_valid unparsed trim.
Proof.
  intros H.
  assert (V : valid_status "archived").
  { apply (H [LoadBegin; LoadResolve [(archived_doc, 0)]] (taskOfDoc archived_doc 0)).
    simpl. auto. }
  unfold valid_status in V. simpl in V. intuition discriminate.
Qed.

(** Whatever else a lower-casing function does: when it lowers the
    capitals kappa, omicron, sigma with a final sigma, as the built-in
    does, and leaves the word kosmos as it is, the task titled kosmos is
    not displayed for the query in capitals, although the query is the
    start of the title but for the case of its letters. *)
Lemma final_sigma_refutes (lower : string -> string) :
  lower capitals_kos = small_kos ->
  lower kosmos = kosmos ->
  ~ filter_ignores_case unparsed lower.
Proof.
  intros L1 L2 H.
  assert (K : In kosmos_task (columnTasks unparsed lower greek_search Todo)).
  { apply (H greek_search Todo kosmos_task); [now left | now left | reflexivity |].
    split; [|now left]. right. left.
    exists ""%string,
      (Spec.greek "206" "186" ++ Spec.greek "206" "191" ++ Spec.greek "207" "131")%string,
      (Spec.greek "206" "188" ++ Spec.greek "206" "191" ++ Spec.greek "207" "130")%string.
    split; [reflexivity|].
    refine (sic_capital (Spec.greek "206" "154") (Spec.greek "206" "186")
              _ _ eq_refl _).
    refine (sic_capital (Spec.greek "206" "159") (Spec.greek "206" "191")
              _ _ eq_refl _).
    refine (sic_capital (Spec.greek "206" "163") (Spec.greek "207" "131")
              ""%string ""%string eq_refl _).
    exact sic_empty. }
  apply columnTasks_In in K. destruct K as [_ K].
  unfold columnFilter, matchesSearch in K.
  change (title kosmos_task) with kosmos in K.
  change (filterQuery greek_search) with capitals_kos in K.
  rewrite L1, L2 in K. vm_compute in K. discriminate K.
Qed.

(** C5, as stated, fails outside ASCII: with the capitals kappa, omicron,
    sigma as query, a task titled kosmos is not displayed.  The built-in
    lowers the sigma at the end of the query to a final sigma, and the
    sigma inside the title is not a final one. *)
Lemma final_sigma_hides_task :
  ~ filter_ignores_case unparsed lower_final_sigma.
Proof.
  apply final_sigma_refutes; reflexivity.
Qed.

(** C6, as stated, fails: on the board where the June task was duplicated
    twice at one reading of the clock, the two copies have the same id;
    [deleteTask] removes both and the undo restores one. *)
Lemma undo_restores_one_of_two :
  ~ undo_restores_every_store.
Proof.
  intros H.
  assert (P := H copied_twice "7"%string _ 5 eq_refl).
  apply Permutation_length in P. vm_compute in P. discriminate P.
Qed.

(** C10, as stated, fails: a second duplication at the reading of the clock
    of the first gives the new task the id of the first copy. *)
Lemma duplicate_repeats_id :
  ~ duplicate_id_is_fresh.
Proof.
  intros H.
  apply (H copied_once "1"%string june 7 7 7 _ _ eq_refl eq_refl).
  simpl. left. reflexivity.
Qed.

(** Where the hypotheses of the theorems above matter. *)

(** Without unique ids [deleteTask] removes every task with the id, and
    its undo restores the one that [find] returned. *)
Lemma delete_with_repeated_id :
  tasks (clickUndo 0 (deleteTask "1" 5 (board [june; twin; january] "none")))
  = [january; june].
Proof. reflexivity. Qed.

(** Two duplications at one reading of the clock give two tasks the same
    id. *)
Lemma duplicate_twice_at_one_reading :
  map id (tasks (duplicateTask "1" 7 7 7 (duplicateTask "1" 7 7 7 two_tasks)))
  = ["7"; "7"; "1"; "2"]%string.
Proof. reflexivity. Qed.

(** A priority filter that is not in lower case matches no task: the
    filter is compared as it is with the lower-cased priority. *)
Lemma upper_case_filter_matches_nothing :
  columnTasks unparsed toLowerCase shouting Todo = []
  /\ same_ignoring_case (priorityFilter shouting) (priority june).
Proof.
  split; [now rewrite columnTasks_partition|].
  now apply same_ignoring_case_lower.
Qed.

End Instances.

End BoardFacts.

(** ** Further properties of the code *)

Module MoreFacts.

Import Js Board Spec MoreSpec JsFacts BoardFacts.

(** *** Sorting by due date *)

Section Stable.

Variable T : Type.
Variable comparefn : T -> T -> Value T.
Variable p : T -> bool.
Hypothesis ties :
  forall x y : T, p x = true -> p y = true -> (0 <? SortCompare comparefn x y) = false.

Lemma insert_stable (x : T) (l : list T) :
  filter p (insert comparefn x l) = filter p (x :: l).
Proof.
  induction l as [|y l IH]; [reflexivity|].
  simpl insert. destruct (0 <? SortCompare comparefn x y) eqn:E; [|reflexivity].
  simpl in *. rewrite IH.
  destruct (p x) eqn:Hx; [|reflexivity].
  destruct (p y) eqn:Hy; [|reflexivity].
  rewrite (ties x y Hx Hy) in E. discriminate.
Qed.

(** Elements that the comparison function never puts one after the other
    keep their order in the sorted array. *)
Lemma Array_sort_stable (l : list T) :
  filter p (Array_sort comparefn l) = filter p l.
Proof.
  induction l as [|x l IH]; [reflexivity|].
  simpl Array_sort. fold (Array_sort comparefn l).
  rewrite insert_stable. simpl. now rewrite IH.
Qed.

End Stable.

Section DueDate.

Variable Date_parse : string -> Num.

Lemma undated_tie (order : string) (x y : Task) :
  negb (has_dueDate x) = true -> negb (has_dueDate y) = true ->
  (0 <? SortCompare (compareDueDate Date_parse order) x y) = false.
Proof.
  intros Hx Hy. unfold SortCompare, compareDueDate. now rewrite Hx, Hy.
Qed.

Lemma same_date_tie (order : string) (ms : Z) (x y : Task) :
  due_at Date_parse ms x = true -> due_at Date_parse ms y = true ->
  (0 <? SortCompare (compareDueDate Date_parse order) x y) = false.
Proof.
  unfold due_at. intros Hx Hy.
  apply andb_true_iff in Hx. destruct Hx as [Hx Dx].
  apply andb_true_iff in Hy. destruct Hy as [Hy Dy].
  unfold SortCompare, compareDueDate. rewrite Hx, Hy. simpl.
  destruct (new_Date Date_parse (dueDate x)) as [a|]; [|discriminate].
  destruct (new_Date Date_parse (dueDate y)) as [b|]; [|discriminate].
  apply Z.eqb_eq in Dx, Dy. subst.
  destruct (String.eqb order "asc"); simpl; now rewrite Z.sub_diag.
Qed.

(** X1.  When every due date is a valid date, [sortTasksByDueDate] gives
    back the same tasks, for [asc] by due date ascending with the undated
    tasks last, for [desc] descending with the undated tasks first, and
    for [none] as they were.  For every order the undated tasks keep their
    order among themselves, and so do the tasks due at the same instant. *)
Theorem sortTasksByDueDate_orders (l : list Task) :
  Forall (well_dated Date_parse) l ->
  sortTasksByDueDate Date_parse l "none" = l
  /\ Permutation (sortTasksByDueDate Date_parse l "asc") l
  /\ StronglySorted (ascending Date_parse) (sortTasksByDueDate Date_parse l "asc")
  /\ Permutation (sortTasksByDueDate Date_parse l "desc") l
  /\ StronglySorted (descending Date_parse) (sortTasksByDueDate Date_parse l "desc")
  /\ (forall order : string,
        filter (fun t => negb (has_dueDate t)) (sortTasksByDueDate Date_parse l order)
        = filter (fun t => negb (has_dueDate t)) l)
  /\ (forall (order : string) (ms : Z),
        filter (due_at Date_parse ms) (sortTasksByDueDate Date_parse l order)
        = filter (due_at Date_parse ms) l).
Proof.
  intros H.
  destruct (sortTasksByDueDate_sorts Date_parse l H) as [[Pa Sa] [Pd Sd]].
  split; [reflexivity|]. repeat (split; [assumption|]).
  split; intros order; [|intros ms]; unfold sortTasksByDueDate;
    destruct (String.eqb order "none"); try reflexivity;
    apply Array_sort_stable.
  - apply undated_tie.
  - apply same_date_tie.
Qed.

End DueDate.

(** *** Pinning *)

Lemma assign_twice (i : string) (f : Task -> Task) (l : list Task) :
  (forall t : Task, id (f t) = id t) ->
  assign i f (assign i f l) = assign i (fun t => f (f t)) l.
Proof.
  intros Hf. induction l as [|t l IH]; [reflexivity|]. simpl.
  destruct (String.eqb (id t) i) eqn:E; simpl.
  - now rewrite Hf, E.
  - now rewrite E, IH.
Qed.

Lemma assign_same (i : string) (f : Task -> Task) (l : list Task) :
  (forall t : Task, f t = t) -> assign i f l = l.
Proof.
  intros Hf. induction l as [|t l IH]; [reflexivity|]. simpl.
  destruct (String.eqb (id t) i); [now rewrite Hf | now rewrite IH].
Qed.

Lemma assign_ids (i : string) (f : Task -> Task) (l : list Task) :
  (forall t : Task, id (f t) = id t) ->
  map id (assign i f l) = map id l.
Proof.
  intros Hf. induction l as [|t l IH]; [reflexivity|]. simpl.
  destruct (String.eqb (id t) i); simpl; [now rewrite Hf | now rewrite IH].
Qed.

Lemma find_task_assign (i : string) (f : Task -> Task) (l : list Task) :
  (forall t : Task, id (f t) = id t) ->
  find_task i (assign i f l) = option_map f (find_task i l).
Proof.
  intros Hf. unfold find_task. induction l as [|t l IH]; [reflexivity|]. simpl.
  destruct (String.eqb (id t) i) eqn:E; simpl.
  - now rewrite Hf, E.
  - now rewrite E, IH.
Qed.

Lemma set_pinned_twice (t : Task) :
  set_pinned (set_pinned t (negb (pinned t)))
             (negb (pinned (set_pinned t (negb (pinned t))))) = t.
Proof. destruct t as [? ? ? ? ? ? pin ? ? ? ?]. simpl. now rewrite negb_involutive. Qed.

(** X2.  [togglePin] twice on the same id gives back the state as it was,
    whether or not the id is in the store.  One [togglePin] keeps the ids
    of the store in their order and, when the id is found, replaces the
    first task that has it by the same task with [pinned] negated. *)
Theorem togglePin_twice (st : State) (i : string) :
  togglePin i (togglePin i st) = st
  /\ map id (tasks (togglePin i st)) = map id (tasks st)
  /\ same_but_tasks st (togglePin i st)
  /\ (forall t : Task,
        find_task i (tasks st) = Some t ->
        exists before after : list Task,
          tasks st = (before ++ t :: after)%list
          /\ tasks (togglePin i st)
             = (before ++ set_pinned t (negb (pinned t)) :: after)%list).
Proof.
  unfold togglePin at 2 3 4 5.
  destruct (find_task i (tasks st)) as [t|] eqn:E.
  - split; [|split; [|split]].
    + unfold togglePin. simpl.
      rewrite find_task_assign, E by reflexivity. simpl.
      rewrite assign_twice by reflexivity.
      rewrite (assign_same _ _ _ set_pinned_twice). now destruct st.
    + simpl. now apply assign_ids.
    + unfold same_but_tasks. simpl. tauto.
    + intros t0 [= <-].
      destruct (find_task_split _ _ _ E) as [before [after [El [Hb Ht]]]].
      exists before, after. split; [exact El|]. simpl.
      rewrite El at 1. now apply assign_split.
  - split; [|split; [|split]].
    + unfold togglePin. now rewrite E.
    + reflexivity.
    + unfold same_but_tasks. tauto.
    + discriminate.
Qed.

(** *** Clearing the board *)

Section Clear.

Variable Date_parse : string -> Num.
Variable toLowerCase : string -> string.

(** X3.  After [clearBoard] every column is empty.  The undo of the toast
    it shows, clicked at once, gives back the state as it was before the
    clear.  Clicked later, it puts the cleared task list in the place of
    whatever the store holds then. *)
Theorem clearBoard_undo (st : State) :
  (forall col : Column, columnTasks Date_parse toLowerCase (clearBoard st) col = [])
  /\ clickUndo (List.length (toasts st)) (clearBoard st) = st
  /\ (forall (later : State) (before after : list UndoAction),
        toasts later = (before ++ UndoClear (tasks st) :: after)%list ->
        tasks (clickUndo (List.length before) later) = tasks st).
Proof.
  split; [|split].
  - intros col. reflexivity.
  - rewrite (clickUndo_at (clearBoard st) (toasts st) [] (UndoClear (tasks st)))
      by reflexivity.
    simpl. rewrite app_nil_r. now destruct st.
  - intros later before after H. now rewrite (clickUndo_at _ _ _ _ H).
Qed.

End Clear.

(** *** The search *)

Lemma string_app_assoc (a b c : string) :
  ((a ++ b) ++ c = a ++ (b ++ c))%string.
Proof. induction a as [|x a IH]; simpl; [reflexivity | now rewrite IH]. Qed.

Lemma string_app_empty (a b : string) :
  (a ++ b)%string = EmptyString -> a = EmptyString /\ b = EmptyString.
Proof. destruct a; simpl; [auto | discriminate]. Qed.

Lemma includes_part (s before q after : string) :
  includes s (before ++ q ++ after) = true -> includes s q = true.
Proof.
  rewrite !includes_occurs. intros [pre [post E]].
  exists (pre ++ before)%string, (after ++ post)%string.
  now rewrite E, !string_app_assoc.
Qed.

Lemma filter_filter (A : Type) (f g : A -> bool) (l : list A) :
  filter f (filter g l) = filter (fun x => f x && g x) l.
Proof.
  induction l as [|x l IH]; [reflexivity|]. simpl.
  destruct (g x); simpl; [destruct (f x); now rewrite IH|].
  now rewrite andb_false_r.
Qed.

Section Search.

Variable Date_parse : string -> Num.
Variable toLowerCase : string -> string.

Hypothesis lowers : folds_ascii toLowerCase.

Lemma matchesSearch_narrows (st : State) (before q after : string) (t : Task) :
  is_ascii (before ++ q ++ after) = true ->
  matchesSearch toLowerCase (set_filterQuery st (before ++ q ++ after)) t = true ->
  matchesSearch toLowerCase (set_filterQuery st q) t = true.
Proof.
  intros A. unfold matchesSearch. simpl.
  rewrite (lowers _ A). apply is_ascii_parts in A. destruct A as [_ [A _]].
  rewrite (lowers _ A), !orb_true_iff, !andb_true_iff, !toLowerCase_app.
  intros [[H | H] | [Hd H]].
  - apply String.eqb_eq, string_app_empty in H. destruct H as [_ H].
    apply string_app_empty in H. destruct H as [-> _]. auto.
  - left. right. now apply includes_part in H.
  - right. split; [exact Hd|]. now apply includes_part in H.
Qed.

(** X4.  A query of ASCII characters that contains another one narrows its
    result, whatever the texts of the tasks: the column shown for the longer
    query is the column shown for the shorter one, in the same order,
    without the tasks that the longer query does not match.  So typing
    such characters at either end of the query never brings a task back. *)
Theorem longer_query_narrows (st : State) (before q after : string) (col : Column) :
  is_ascii (before ++ q ++ after) = true ->
  let longer := set_filterQuery st (before ++ q ++ after) in
  let shorter := set_filterQuery st q in
  columnTasks Date_parse toLowerCase longer col
  = filter (matchesSearch toLowerCase longer) (columnTasks Date_parse toLowerCase shorter col)
  /\ incl (columnTasks Date_parse toLowerCase longer col) (columnTasks Date_parse toLowerCase shorter col).
Proof.
  intros A longer shorter.
  assert (E : columnTasks Date_parse toLowerCase longer col
              = filter (matchesSearch toLowerCase longer) (columnTasks Date_parse toLowerCase shorter col)).
  { rewrite !columnTasks_partition, filter_app, !filter_filter.
    f_equal; apply filter_ext; intros t; unfold columnFilter; simpl;
      (destruct (matchesSearch toLowerCase longer t) eqn:L;
       [ unfold longer in L; apply (matchesSearch_narrows _ _ _ _ _ A) in L;
         fold shorter in L; rewrite L
       | ]);
      destruct (negb (String.eqb (status t) (col_id col)));
      simpl; rewrite ?andb_false_r, ?andb_true_r; try reflexivity;
      now destruct (matchesSearch toLowerCase shorter t), (matchesPriority toLowerCase st t). }
  split; [exact E|].
  intros t Ht. rewrite E in Ht. now apply filter_In in Ht.
Qed.

End Search.

(** *** The columns of the board *)

Lemma col_id_injective (c1 c2 : Column) : col_id c1 = col_id c2 -> c1 = c2.
Proof. destruct c1, c2; simpl; intros H; try reflexivity; discriminate. Qed.

Lemma three_way_partition (l : list Task) :
  Permutation
    (filter (fun t => String.eqb (status t) "todo") l
     ++ filter (fun t => String.eqb (status t) "progress") l
     ++ filter (fun t => String.eqb (status t) "done") l)
    (filter in_a_column l).
Proof.
  induction l as [|t l IH]; [reflexivity|].
  unfold in_a_column in *. simpl.
  destruct (String.eqb_spec (status t) "todo") as [E1 | E1].
  - rewrite E1. simpl. now constructor.
  - destruct (String.eqb_spec (status t) "progress") as [E2 | E2].
    + rewrite E2. simpl. rewrite <- Permutation_middle. now constructor.
    + destruct (String.eqb_spec (status t) "done") as [E3 | E3]; simpl.
      * rewrite app_assoc, <- Permutation_middle, <- app_assoc. now constructor.
      * exact IH.
Qed.

Section Columns.

Variable Date_parse : string -> Num.
Variable toLowerCase : string -> string.

Lemma columnTasks_without_filters (st : State) (col : Column) :
  Permutation (columnTasks Date_parse toLowerCase (without_filters st) col)
              (filter (fun t => String.eqb (status t) (col_id col)) (tasks st)).
Proof.
  unfold columnTasks. rewrite Array_sort_Permutation.
  erewrite filter_ext; [reflexivity|].
  intros t. unfold columnFilter, matchesSearch, matchesPriority. simpl.
  now destruct (String.eqb (status t) (col_id col)).
Qed.

(** X5.  Every task that [renderBoard] shows in a column is a task of the
    store whose status is the id of that column, so no task is shown in
    two columns.  With an empty search and the priority filter [all], the
    three columns together show exactly the tasks whose status is the id of
    a column, each as often as the store holds it; a task with any other
    status is shown nowhere. *)
Theorem columns_partition_the_store (st : State) :
  (forall (col : Column) (t : Task),
     In t (columnTasks Date_parse toLowerCase st col) ->
     In t (tasks st) /\ status t = col_id col)
  /\ (forall (c1 c2 : Column) (t : Task),
        In t (columnTasks Date_parse toLowerCase st c1) ->
        In t (columnTasks Date_parse toLowerCase st c2) -> c1 = c2)
  /\ Permutation
       (List.concat (map snd (renderBoard Date_parse toLowerCase (without_filters st))))
       (filter in_a_column (tasks st))
  /\ (forall (col : Column) (t : Task),
        in_a_column t = false -> ~ In t (columnTasks Date_parse toLowerCase st col)).
Proof.
  assert (S : forall (col : Column) (t : Task),
             In t (columnTasks Date_parse toLowerCase st col) ->
             In t (tasks st) /\ status t = col_id col).
  { intros col t H. apply columnTasks_In in H. destruct H as [H F].
    split; [exact H|]. unfold columnFilter in F.
    destruct (String.eqb_spec (status t) (col_id col)); [assumption | discriminate]. }
  split; [exact S|]. split; [|split].
  - intros c1 c2 t H1 H2. apply S in H1, H2.
    apply col_id_injective. destruct H1 as [_ <-]. now destruct H2.
  - unfold renderBoard. simpl. rewrite app_nil_r.
    rewrite !columnTasks_without_filters. apply three_way_partition.
  - intros col t Hn H. apply S in H. destruct H as [_ H].
    unfold in_a_column in Hn. rewrite H in Hn.
    destruct col; simpl in Hn; discriminate.
Qed.

End Columns.

(** *** Loading *)

Section Load.

Variable Date_parse : string -> Num.
Variable trim : string -> string.

Lemma taskOfDoc_as_loaded (dn : RemoteDoc * Z) :
  as_loaded (taskOfDoc (fst dn) (snd dn)).
Proof.
  unfold as_loaded, taskOfDoc. simpl. repeat (split; [reflexivity|]).
  destruct (doc_priority (fst dn)) as [s|]; simpl; [|discriminate].
  unfold or_string, truthy_string.
  destruct (String.eqb_spec s ""); simpl; [discriminate | assumption].
Qed.

(** X6.  A load that runs from its start to its end with nothing in
    between replaces the store: whatever it held, it then holds one task
    per remote document, in the order of the documents and with their
    ids, none of them pinned, without subtasks or files, each with a
    priority; so a second load does not add to the first.  A task that a
    form creates while the load is under way stays in the store, before
    the loaded tasks.  The filters, the sort order, the undo register and
    the toasts are as before the load. *)
Theorem load_replaces_the_store (st : State) (docs : list (RemoteDoc * Z)) :
  let loaded := run Date_parse trim [LoadBegin; LoadResolve docs] st in
  tasks loaded = map (fun dn => taskOfDoc (fst dn) (snd dn)) docs
  /\ map id (tasks loaded) = map (fun dn => doc_id (fst dn)) docs
  /\ Forall as_loaded (tasks loaded)
  /\ same_but_tasks st loaded
  /\ (forall docs' : list (RemoteDoc * Z),
        tasks (run Date_parse trim [LoadBegin; LoadResolve docs'] loaded)
        = map (fun dn => taskOfDoc (fst dn) (snd dn)) docs')
  /\ (forall (form : Form) (subs : list Subtask) (n1 n2 n3 : Z),
        exists created : Task,
          tasks (run Date_parse trim
                     [LoadBegin; FormSubmit form subs n1 n2 n3; LoadResolve docs] st)
          = created :: map (fun dn => taskOfDoc (fst dn) (snd dn)) docs
          /\ id created = or_string (form_dataset_id form) (Number_toString n1)
          /\ status created = form_status form).
Proof.
  intros loaded. split; [reflexivity|]. split; [|split; [|split; [|split]]].
  - simpl. rewrite map_map. reflexivity.
  - simpl. apply Forall_forall. intros t Ht. apply in_map_iff in Ht.
    destruct Ht as [dn [<- _]]. apply taskOfDoc_as_loaded.
  - unfold same_but_tasks. simpl. tauto.
  - reflexivity.
  - intros form subs n1 n2 n3. eexists. simpl. unfold handleFormSubmit. simpl.
    split; [reflexivity|]. split; reflexivity.
Qed.

End Load.

(** *** The task form *)

Lemma trimStart_head (s : string) (c : ascii) (rest : string) :
  trimStart s = String c rest -> is_white c = false.
Proof.
  induction s as [|a s IH]; simpl; [discriminate|].
  destruct (is_white a) eqn:E; [exact IH|]. intros [= <- _]. exact E.
Qed.

Lemma trimEnd_head (c : ascii) (s : string) :
  is_white c = false -> exists r : string, trimEnd (String c s) = String c r.
Proof.
  intros H. simpl. destruct (trimEnd s); [rewrite H|]; eauto.
Qed.

Lemma app_one_char (init : string) (c a : ascii) (r : string) :
  (init ++ String c EmptyString)%string = String a r ->
  (init = EmptyString /\ c = a /\ r = EmptyString)
  \/ exists init' : string,
       init = String a init' /\ r = (init' ++ String c EmptyString)%string.
Proof.
  destruct init as [|x init]; simpl; intros [= -> <-]; [left | right]; eauto.
Qed.

Lemma app_one_char_nonempty (init : string) (c : ascii) :
  (init ++ String c EmptyString)%string <> EmptyString.
Proof. destruct init; discriminate. Qed.

Lemma trimEnd_last (s init : string) (c : ascii) :
  trimEnd s = (init ++ String c EmptyString)%string -> is_white c = false.
Proof.
  revert init. induction s as [|a s IH]; intros init; simpl.
  - intros H. symmetry in H. now apply app_one_char_nonempty in H.
  - destruct (trimEnd s) as [|b r] eqn:E.
    + destruct (is_white a) eqn:W; intros H; symmetry in H.
      * now apply app_one_char_nonempty in H.
      * apply app_one_char in H. destruct H as [[_ [-> _]] | [init' [_ H]]];
          [exact W|]. symmetry in H. now apply app_one_char_nonempty in H.
    + intros H. symmetry in H. apply app_one_char in H.
      destruct H as [[_ [_ H]] | [init' [_ H]]]; [discriminate|].
      now apply (IH init').
Qed.

(** [trim] leaves no white space at either end. *)
Lemma trim_no_outer_white (s : string) : no_outer_white (trim s).
Proof.
  unfold no_outer_white, trim. split.
  - intros c rest H. destruct (trimStart s) as [|a r] eqn:E; [discriminate|].
    pose proof (trimStart_head _ _ _ E) as W.
    destruct (trimEnd_head a r W) as [r' E']. rewrite E' in H.
    now injection H as <- _.
  - intros init c H. now apply trimEnd_last in H.
Qed.

Lemma untitled_no_outer_white : no_outer_white "Untitled Task".
Proof.
  split.
  - intros c rest [= <- _]. reflexivity.
  - intros init c H.
    repeat (destruct init as [|? init]; simpl in H;
            [try discriminate; injection H as <-; reflexivity
            | injection H as <- H]).
    symmetry in H. now apply app_one_char_nonempty in H.
Qed.

Lemma or_string_value (a b : string) :
  (a = EmptyString /\ or_string a b = b) \/ (a <> EmptyString /\ or_string a b = a).
Proof.
  unfold or_string, truthy_string.
  destruct (String.eqb_spec a ""); simpl; [left | right]; auto.
Qed.

Lemma unique_ids_push (l : list Task) (t : Task) :
  unique_ids l -> ~ In (id t) (map id l) -> unique_ids (l ++ [t]).
Proof.
  unfold unique_ids. intros Hu Hn. rewrite map_app. simpl.
  apply (Permutation_NoDup (l := id t :: map id l)).
  - apply Permutation_cons_append.
  - now constructor.
Qed.

Section Form.

Variable Date_parse : string -> Num.
Variable trim : string -> string.

(** X7.  A form submitted without an id, at a clock reading that is not
    yet the id of a task, adds exactly one task at the end of the store
    and changes no other task.  The new task has the clock reading as id;
    its title is what [trim] gives for the title field, or [Untitled Task]
    when [trim] leaves nothing of it, so it is never empty and, [trim]
    leaving no white space at the ends of a text, has no white space at its
    ends; it is not pinned and has no files; unique ids stay unique. *)
Theorem form_creates_task (st : State) (form : Form) (subs : list Subtask)
        (now_id now_updated now_created : Z) :
  trims_white trim ->
  form_dataset_id form = ""%string ->
  ~ In (Number_toString now_id) (map id (tasks st)) ->
  let st' := handleFormSubmit Date_parse trim form subs now_id now_updated now_created st in
  exists created : Task,
    tasks st' = (tasks st ++ [created])%list
    /\ same_but_tasks st st'
    /\ id created = Number_toString now_id
    /\ title created <> ""%string
    /\ no_outer_white (title created)
    /\ (trim (form_title form) = ""%string -> title created = "Untitled Task"%string)
    /\ (trim (form_title form) <> ""%string -> title created = trim (form_title form))
    /\ description created = trim (form_description form)
    /\ status created = form_status form
    /\ priority created = form_priority form
    /\ pinned created = false
    /\ subtasks created = subs
    /\ files created = []
    /\ createdAt created = Finite now_created
    /\ updatedAt created = Some now_updated
    /\ (unique_ids (tasks st) -> unique_ids (tasks st')).
Proof.
  intros Htrim Hid Hnew st'. subst st'. unfold handleFormSubmit. rewrite Hid.
  change (or_string "" (Number_toString now_id)) with (Number_toString now_id).
  rewrite (find_task_missing _ _ Hnew).
  eexists. split; [reflexivity|]. simpl.
  split; [unfold same_but_tasks; simpl; tauto|].
  split; [reflexivity|].
  destruct (or_string_value (trim (form_title form)) "Untitled Task")
    as [[E ->] | [E ->]].
  - split; [discriminate|]. split; [apply untitled_no_outer_white|].
    split; [reflexivity|]. split; [tauto|].
    split; [now destruct (or_string_value (trim (form_description form)) "")
              as [[-> ->] | [_ ->]]|].
    repeat (split; [reflexivity|]).
    split; [now destruct subs|]. repeat (split; [reflexivity|]).
    intros Hu. now apply unique_ids_push.
  - split; [exact E|]. split; [apply Htrim|].
    split; [tauto|]. split; [reflexivity|].
    split; [now destruct (or_string_value (trim (form_description form)) "")
              as [[-> ->] | [_ ->]]|].
    repeat (split; [reflexivity|]).
    split; [now destruct subs|]. repeat (split; [reflexivity|]).
    intros Hu. now apply unique_ids_push.
Qed.

(** X8.  A form submitted with the id of a task [t] of the store replaces
    [t] where it stands and changes no other task; the store keeps its
    ids in their order.  The edited task keeps the id, the creation time,
    the pin and the files of [t]; its status and priority are those of the
    form; its subtasks are those of the form, unless the form has none: a
    form left without subtasks keeps the subtasks of [t]. *)
Theorem form_edits_task (st : State) (form : Form) (subs : list Subtask)
        (now_id now_updated now_created : Z) (t : Task) :
  form_dataset_id form <> ""%string ->
  find_task (form_dataset_id form) (tasks st) = Some t ->
  let st' := handleFormSubmit Date_parse trim form subs now_id now_updated now_created st in
  exists (before after : list Task) (edited : Task),
    tasks st = (before ++ t :: after)%list
    /\ tasks st' = (before ++ edited :: after)%list
    /\ same_but_tasks st st'
    /\ map id (tasks st') = map id (tasks st)
    /\ id edited = id t
    /\ createdAt edited = createdAt t
    /\ pinned edited = pinned t
    /\ files edited = files t
    /\ updatedAt edited = Some now_updated
    /\ status edited = form_status form
    /\ priority edited = form_priority form
    /\ title edited <> ""%string
    /\ (subs = [] -> subtasks edited = subtasks t)
    /\ (subs <> [] -> subtasks edited = subs).
Proof.
  intros Hid Hfind st'. subst st'. unfold handleFormSubmit.
  destruct (or_string_value (form_dataset_id form) (Number_toString now_id))
    as [[E _] | [_ ->]]; [contradiction|].
  rewrite Hfind.
  destruct (find_task_split _ _ _ Hfind) as [before [after [El [Hb Ht]]]].
  exists before, after. eexists. split; [exact El|].
  split; [simpl; rewrite El at 1; now apply assign_split|]. simpl.
  split; [unfold same_but_tasks; simpl; tauto|].
  split; [rewrite El, assign_split by assumption;
          rewrite !map_app; simpl; now rewrite Ht|].
  split; [now symmetry|]. repeat (split; [reflexivity|]).
  split.
  - destruct (or_string_value (trim (form_title form)) "Untitled Task")
      as [[_ ->] | [E ->]]; [discriminate | exact E].
  - split; intros Hs; [now rewrite Hs | now destruct subs].
Qed.

End Form.

(** *** Files dropped on the board *)

Section FileDrop.

Variable Date_parse : string -> Num.
Variable toLowerCase : string -> string.

(** X9.  A drop without files changes nothing.  A drop of files while no
    task is being edited adds exactly one task at the end of the store:
    its title is the name of the first file up to its first dot, its
    status [todo] and its priority [medium], and it records every dropped
    file, in order.  With an empty search and the priority filter [all] it
    is the last card of the first column. *)
Theorem file_drop_creates_task (st : State) (taskId : option string)
        (first : DroppedFile) (rest : list DroppedFile) (now_id now_created : Z) :
  taskId = None \/ taskId = Some ""%string ->
  let st' := handleFileDrop taskId (first :: rest) now_id now_created st in
  handleFileDrop taskId [] now_id now_created st = st
  /\ exists created : Task,
       tasks st' = (tasks st ++ [created])%list
       /\ same_but_tasks st st'
       /\ id created = Number_toString now_id
       /\ title created = before_dot (dropped_name first)
       /\ status created = "todo"%string
       /\ priority created = "medium"%string
       /\ files created = map fileInfo (first :: rest)
       /\ columnTasks Date_parse toLowerCase (without_filters st') Todo
          = (columnTasks Date_parse toLowerCase (without_filters st) Todo ++ [created])%list.
Proof.
  intros Hid st'. split; [reflexivity|].
  assert (E : st' = set_tasks st (tasks st ++
                [mkTask (Number_toString now_id) (before_dot (dropped_name first))
                        ("Added " ++ Number_toString (Z.of_nat (List.length (first :: rest)))
                                  ++ " file(s)")
                        "todo" "medium" NoDate false [] (map fileInfo (first :: rest))
                        (Finite now_created) None])).
  { subst st'. unfold handleFileDrop. now destruct Hid as [-> | ->]. }
  eexists. split; [rewrite E; reflexivity|].
  split; [rewrite E; unfold same_but_tasks; simpl; tauto|].
  repeat (split; [reflexivity|]).
  rewrite E, !columnTasks_partition. simpl.
  rewrite !filter_app. simpl. rewrite !app_nil_r. now rewrite app_assoc.
Qed.

End FileDrop.

(** *** The markup of a text *)

Section Markup.

Import Card.

(** The ways in which [escapeText] starts. *)
Inductive escape_step : string -> string -> Prop :=
| step_end : escape_step EmptyString EmptyString
| step_amp (rest : string) :
    escape_step (String "&" rest) ("&amp;" ++ escapeText rest)
| step_lt (rest : string) :
    escape_step (String "<" rest) ("&lt;" ++ escapeText rest)
| step_gt (rest : string) :
    escape_step (String ">" rest) ("&gt;" ++ escapeText rest)
| step_nbsp (rest : string) :
    escape_step (String "194" (String "160" rest)) ("&nbsp;" ++ escapeText rest)
| step_char (c : ascii) (rest : string) :
    c <> "&"%char -> c <> "<"%char -> c <> ">"%char ->
    (c = "194"%char -> forall r : string, rest <> String "160" r) ->
    escape_step (String c rest) (String c (escapeText rest)).

Lemma escapeText_step (s : string) : escape_step s (escapeText s).
Proof.
  destruct s as [|c rest]; [constructor|]. simpl.
  destruct (Ascii.eqb_spec c "&") as [-> | N1]; [constructor|].
  destruct (Ascii.eqb_spec c "<") as [-> | N2]; [constructor|].
  destruct (Ascii.eqb_spec c ">") as [-> | N3]; [constructor|].
  destruct (Ascii.eqb_spec c "194") as [-> | N4].
  - destruct rest as [|d r].
    + apply (step_char "194" EmptyString); try discriminate;
        try (intros _ r H; discriminate).
    + destruct (Ascii.eqb_spec d "160") as [-> | N5]; [constructor|].
      apply (step_char "194" (String d r)); try discriminate;
        try (intros _ r' [= E _]; contradiction).
  - constructor; try assumption. intros E. contradiction.
Qed.

Lemma escapeText_injective_upto (n : nat) :
  forall s t : string,
    (String.length s <= n)%nat -> escapeText s = escapeText t -> s = t.
Proof.
  induction n as [|n IH]; intros s t Hn E.
  - destruct s; [|simpl in Hn; lia].
    pose proof (escapeText_step t) as St. rewrite <- E in St. simpl in St.
    now inversion St.
  - pose proof (escapeText_step s) as Ss. pose proof (escapeText_step t) as St.
    remember (escapeText s) as os eqn:Os. remember (escapeText t) as ot eqn:Ot.
    clear Os Ot.
    destruct Ss; destruct St; simpl in *; subst; try discriminate;
      try reflexivity.
    all: try (injection E as E).
    all: try congruence.
    all: try (f_equal; apply IH; [lia | congruence]).
    + do 2 f_equal. apply IH; [lia | exact E].
    + subst. f_equal. apply IH; [lia | assumption].
Qed.

Lemma escapeText_no_angle_upto (n : nat) :
  forall s : string,
    (String.length s <= n)%nat ->
    occurrences "<" (escapeText s) = O /\ occurrences ">" (escapeText s) = O.
Proof.
  induction n as [|n IH]; intros s Hn.
  - destruct s; [auto | simpl in Hn; lia].
  - pose proof (escapeText_step s) as Ss.
    remember (escapeText s) as os eqn:Os. clear Os.
    destruct Ss as [ | r | r | r | r | c r N1 N2 N3 N4]; simpl in Hn;
      simpl occurrences; try (destruct (IH r ltac:(lia)) as [-> ->]); auto.
    apply Ascii.eqb_neq in N2, N3. now rewrite N2, N3.
Qed.

Lemma escapeText_quotes_upto (n : nat) :
  forall s : string,
    (String.length s <= n)%nat ->
    occurrences double_quote (escapeText s) = occurrences double_quote s.
Proof.
  induction n as [|n IH]; intros s Hn.
  - destruct s; [auto | simpl in Hn; lia].
  - pose proof (escapeText_step s) as Ss.
    remember (escapeText s) as os eqn:Os. clear Os.
    destruct Ss as [ | r | r | r | r | c r N1 N2 N3 N4]; simpl in Hn;
      simpl occurrences; try (rewrite (IH r) by lia); reflexivity.
Qed.

(** A text that starts with [c] holds no no-break space when [c] and the
    next character are not one, and the rest holds none. *)
Lemma no_nbsp_cons (c : ascii) (s : string) :
  includes (String c s) no_break_space = false <->
  (c = "194"%char -> forall r : string, s <> String "160" r)
  /\ includes s no_break_space = false.
Proof.
  rewrite (includes_unfold (String c s)).
  destruct (prefix no_break_space (String c s)) eqn:P.
  - apply prefix_app in P. destruct P as [post E].
    unfold no_break_space in E. simpl in E. injection E as -> ->.
    split; [discriminate | intros [H _]; exfalso; now apply (H eq_refl post)].
  - split; [|intros [_ H]; exact H].
    intros H. split; [|exact H]. intros -> r ->.
    assert (Q : prefix no_break_space (String "194" (String "160" r)) = true)
      by (apply prefix_app; exists r; reflexivity).
    rewrite Q in P. discriminate P.
Qed.

Lemma escapeText_plain (s : string) :
  needs_no_escape s -> escapeText s = s.
Proof.
  unfold needs_no_escape.
  induction s as [|c s IH]; [reflexivity|].
  rewrite no_nbsp_cons. simpl.
  destruct (Ascii.eqb c "&"); [intros [H _]; discriminate H|].
  destruct (Ascii.eqb c "<"); [intros [_ [H _]]; discriminate H|].
  destruct (Ascii.eqb c ">"); [intros [_ [_ [H _]]]; discriminate H|].
  simpl. intros [H1 [H2 [H3 [H4 H5]]]].
  destruct (Ascii.eqb_spec c "194") as [-> | N].
  - destruct s as [|d r]; [reflexivity|].
    destruct (Ascii.eqb_spec d "160") as [-> | Nd];
      [exfalso; now apply (H4 eq_refl r)|].
    f_equal. apply IH. auto.
  - f_equal. apply IH. auto.
Qed.

(** The markup of a text is at least as long as the text. *)
Lemma escapeText_length_upto (n : nat) :
  forall s : string,
    (String.length s <= n)%nat ->
    (String.length s <= String.length (escapeText s))%nat.
Proof.
  induction n as [|n IH]; intros s Hn.
  - destruct s; [simpl; lia | simpl in Hn; lia].
  - pose proof (escapeText_step s) as Ss.
    remember (escapeText s) as os eqn:Os. clear Os.
    destruct Ss as [ | r | r | r | r | c r N1 N2 N3 N4]; simpl in Hn; simpl;
      try (assert (L := IH r ltac:(lia))); lia.
Qed.

(** A text that is its own markup needs no character reference. *)
Lemma escapeText_fixed_upto (n : nat) :
  forall s : string,
    (String.length s <= n)%nat -> escapeText s = s -> needs_no_escape s.
Proof.
  unfold needs_no_escape.
  induction n as [|n IH]; intros s Hn E.
  - destruct s; [repeat split | simpl in Hn; lia].
  - pose proof (escapeText_step s) as Ss.
    remember (escapeText s) as os eqn:Os. clear Os.
    destruct Ss as [ | r | r | r | r | c r N1 N2 N3 N4]; simpl in Hn;
      try discriminate E.
    + repeat split.
    + exfalso. simpl in E. injection E as E.
      assert (L := escapeText_length_upto (String.length r) r (le_n _)).
      apply (f_equal String.length) in E. simpl in E. lia.
    + injection E as E.
      destruct (IH r ltac:(lia) E) as [H1 [H2 [H3 H4]]].
      apply Ascii.eqb_neq in N1, N2, N3.
      rewrite no_nbsp_cons. simpl.
      rewrite N1, N2, N3, H1, H2, H3. auto.
Qed.

(** X10.  The markup that [sanitize] returns has no angle bracket, so it
    opens no tag; two different texts never get the same markup; the texts
    that are returned as they are, are the texts without ampersand, angle
    bracket and no-break space.  The double quotes of the text are all in
    the markup: [sanitize] does not make a text safe to put between the
    quotes of an attribute, where [createTaskCard] puts the title.  The
    title text of a card is never empty. *)
Theorem sanitize_markup (s : string) :
  occurrences "<" (sanitize s) = O
  /\ occurrences ">" (sanitize s) = O
  /\ (forall t : string, sanitize s = sanitize t -> s = t)
  /\ occurrences double_quote (sanitize s) = occurrences double_quote s
  /\ (sanitize s = s <-> needs_no_escape s)
  /\ (forall task : Task, cardTitleText task <> ""%string).
Proof.
  unfold sanitize.
  destruct (escapeText_no_angle_upto (String.length s) s (le_n _)) as [A B].
  split; [exact A|]. split; [exact B|].
  split; [intros t; now apply (escapeText_injective_upto (String.length s))|].
  split; [now apply (escapeText_quotes_upto (String.length s))|].
  split; [split; [apply (escapeText_fixed_upto (String.length s)), le_n
                 | apply escapeText_plain]|].
  intros task. unfold cardTitleText.
  destruct (or_string_value (sanitize (title task)) "/") as [[_ ->] | [E ->]];
    [discriminate | exact E].
Qed.

End Markup.

(** *** File icons *)

Section Icons.

Import Card.

Lemma split_dot_nonempty (s : string) : split_dot s <> [].
Proof.
  destruct s as [|c s]; simpl; [discriminate|].
  destruct (Ascii.eqb c "."); [discriminate|].
  destruct (split_dot s); discriminate.
Qed.

Lemma split_dot_app (a b : string) :
  split_dot (a ++ String "." b) = (split_dot a ++ split_dot b)%list.
Proof.
  induction a as [|c a IH]; [reflexivity|]. simpl.
  destruct (Ascii.eqb c "."); [now rewrite IH|].
  rewrite IH. destruct (split_dot a) eqn:E; [|reflexivity].
  now apply split_dot_nonempty in E.
Qed.

Lemma split_dot_one (s : string) :
  occurrences "." s = O -> split_dot s = [s].
Proof.
  induction s as [|c s IH]; [reflexivity|]. simpl.
  destruct (Ascii.eqb c "."); [discriminate|]. simpl. intros H.
  now rewrite IH.
Qed.

Lemma last_app_nonempty (A : Type) (l1 l2 : list A) (d : A) :
  l2 <> [] -> last (l1 ++ l2)%list d = last l2 d.
Proof.
  intros H. induction l1 as [|x l1 IH]; [reflexivity|].
  simpl. destruct (l1 ++ l2)%list eqn:E; [|exact IH].
  apply app_eq_nil in E. destruct E as [_ E]. contradiction.
Qed.

Lemma lower_ascii_dot (c : ascii) :
  Ascii.eqb (lower_ascii c) "." = Ascii.eqb c ".".
Proof.
  destruct c as [[] [] [] [] [] [] [] []]; reflexivity.
Qed.

Lemma lower_ascii_twice (c : ascii) :
  lower_ascii (lower_ascii c) = lower_ascii c.
Proof.
  destruct c as [[] [] [] [] [] [] [] []]; reflexivity.
Qed.

Lemma toLowerCase_twice (s : string) :
  toLowerCase (toLowerCase s) = toLowerCase s.
Proof.
  induction s as [|c s IH]; [reflexivity|]. simpl.
  now rewrite lower_ascii_twice, IH.
Qed.

Lemma split_dot_lower (s : string) :
  split_dot (toLowerCase s) = map toLowerCase (split_dot s).
Proof.
  induction s as [|c s IH]; [reflexivity|]. simpl.
  rewrite lower_ascii_dot, IH.
  destruct (Ascii.eqb c "."); [reflexivity|].
  destruct (split_dot s); reflexivity.
Qed.

Lemma pop_lower (l : list string) :
  pop (map toLowerCase l) = toLowerCase (pop l).
Proof.
  unfold pop. induction l as [|x l IH]; [reflexivity|]. simpl.
  destruct l; [reflexivity | exact IH].
Qed.

Lemma get_icons_range (ext : string) :
  match get icons ext with
  | Own value => In value icon_classes /\ value <> ""%string
  | Inherited name =>
      name = ext /\ (ext = "constructor"%string \/ ext = "__proto__"%string)
  | Undefined => True
  end.
Proof.
  unfold get.
  destruct (find (fun kv => String.eqb (fst kv) ext) icons) as [kv|] eqn:E.
  - apply find_some in E. destruct E as [E _].
    unfold icons in E. simpl in E.
    repeat (destruct E as [<- | E];
            [split; [simpl; tauto | discriminate]|]).
    destruct E.
  - destruct (String.eqb_spec ext "constructor") as [-> | N1]; simpl; [auto|].
    destruct (String.eqb_spec ext "__proto__") as [-> | N2]; simpl; auto.
Qed.

Lemma get_icons_own (key class : string) :
  In (key, class) icons ->
  get icons key = Own class /\ truthy_string class = true.
Proof.
  unfold icons. simpl.
  intros H.
  repeat (destruct H as [[= <- <-] | H]; [split; reflexivity|]).
  destruct H.
Qed.

Lemma get_icons_other (key : string) :
  ~ In key (map fst icons) ->
  key <> "constructor"%string -> key <> "__proto__"%string ->
  get icons key = Undefined.
Proof.
  intros Hk N1 N2. unfold get.
  destruct (find (fun kv => String.eqb (fst kv) key) icons) as [kv|] eqn:E.
  - exfalso. apply find_some in E. destruct E as [Hin E].
    apply String.eqb_eq in E. apply Hk. rewrite <- E. now apply in_map.
  - apply String.eqb_neq in N1, N2. now rewrite N1, N2.
Qed.

(** X11.  [getFileIcon] looks at nothing but the text after the last dot
    of the name, whatever the case of its ASCII letters: a name gets the
    icon of its last extension, and a name in upper case the icon of the
    name in lower case.  An extension of the table gets the class that the
    table gives it; the extensions [constructor] and [__proto__] get the
    member of that name that the table inherits, which is no class; every
    other extension gets [fa-file].  So the result is one of the nine icon
    classes or one of the two inherited members. *)
Theorem getFileIcon_by_extension (name ext : string) :
  occurrences "." ext = O ->
  getFileIcon (name ++ String "." ext) = getFileIcon ext
  /\ getFileIcon (toLowerCase (name ++ String "." ext))
     = getFileIcon (name ++ String "." ext)
  /\ match getFileIcon (name ++ String "." ext) with
     | Own value => In value icon_classes
     | Inherited member =>
         member = toLowerCase ext
         /\ (member = "constructor"%string \/ member = "__proto__"%string)
     | Undefined => False
     end
  /\ (forall key class : string,
        In (key, class) icons -> toLowerCase ext = key ->
        getFileIcon (name ++ String "." ext) = Own class)
  /\ (toLowerCase ext = "constructor"%string \/ toLowerCase ext = "__proto__"%string ->
      getFileIcon (name ++ String "." ext) = Inherited (toLowerCase ext))
  /\ (~ In (toLowerCase ext) (map fst icons) ->
      toLowerCase ext <> "constructor"%string ->
      toLowerCase ext <> "__proto__"%string ->
      getFileIcon (name ++ String "." ext) = Own "fa-file").
Proof.
  intros Hdot.
  assert (E : getFileIcon (name ++ String "." ext) = getFileIcon ext).
  { unfold getFileIcon. rewrite split_dot_app.
    rewrite (split_dot_one ext Hdot). unfold pop.
    now rewrite last_app_nonempty by discriminate. }
  assert (X : getFileIcon ext
              = match get icons (toLowerCase ext) with
                | Own value => if truthy_string value then Own value
                               else get icons "default"
                | Inherited member => Inherited member
                | Undefined => get icons "default"
                end).
  { unfold getFileIcon. now rewrite (split_dot_one ext Hdot). }
  split; [exact E|]. split; [|split; [|split; [|split]]].
  - unfold getFileIcon. now rewrite split_dot_lower, pop_lower, toLowerCase_twice.
  - rewrite E, X. pose proof (get_icons_range (toLowerCase ext)) as R.
    destruct (get icons (toLowerCase ext)) as [value | member |].
    + destruct R as [R N]. unfold truthy_string.
      destruct (String.eqb_spec value ""); [contradiction | exact R].
    + destruct R as [-> R]. auto.
    + simpl. tauto.
  - intros key class Hin Hk. rewrite E, X, Hk.
    destruct (get_icons_own key class Hin) as [-> ->]. reflexivity.
  - intros H. rewrite E, X. now destruct H as [-> | ->].
  - intros Hk N1 N2. now rewrite E, X, (get_icons_other _ Hk N1 N2).
Qed.

End Icons.

(** *** The overdue mark *)

Section OverdueFacts.

Import Card.

Variable Date_parse : string -> Num.
Variable startOfDay : Z -> Z.

Lemma TimeClip_in_range (t : Z) :
  Z.abs t <= max_time -> TimeClip t = Finite t.
Proof.
  unfold TimeClip, max_time. intros H. apply Z.leb_le in H. now rewrite H.
Qed.

Lemma never_overdue (now : Z) (task : Task) :
  status task = "done"%string
  \/ has_dueDate task = false
  \/ new_Date Date_parse (dueDate task) = NaN ->
  isOverdue Date_parse startOfDay now task = false.
Proof.
  unfold isOverdue. intros [H | [H | H]].
  - rewrite H. simpl. now rewrite andb_false_r.
  - now rewrite H.
  - rewrite H. simpl. now destruct (has_dueDate task && _).
Qed.

(** X12.  With a start of day that does not decrease, is never after its
    instant and is its own start of day: a card is never marked overdue
    when its task is done, has no due date, or has a due date that is not
    a valid date; otherwise it is marked overdue exactly when the due
    instant lies before the start of today, so a task due earlier today
    is not overdue. *)
Theorem overdue_before_today (now : Z) (task : Task) :
  (forall x y : Z, x <= y -> startOfDay x <= startOfDay y) ->
  (forall x : Z, startOfDay x <= x) ->
  (forall x : Z, startOfDay (startOfDay x) = startOfDay x) ->
  Z.abs now <= max_time ->
  Z.abs (startOfDay now) <= max_time ->
  (status task = "done"%string -> isOverdue Date_parse startOfDay now task = false)
  /\ (has_dueDate task = false -> isOverdue Date_parse startOfDay now task = false)
  /\ (new_Date Date_parse (dueDate task) = NaN ->
      isOverdue Date_parse startOfDay now task = false)
  /\ (forall due : Z,
        has_dueDate task = true ->
        new_Date Date_parse (dueDate task) = Finite due ->
        Z.abs (startOfDay due) <= max_time ->
        isOverdue Date_parse startOfDay now task
        = negb (String.eqb (status task) "done") && (due <? startOfDay now)).
Proof.
  intros Hmono Hle Hidem Rn Rsn.
  split; [intros H; apply never_overdue; auto|].
  split; [intros H; apply never_overdue; auto|].
  split; [intros H; apply never_overdue; auto|].
  intros due Hd Hdue Rsd.
  unfold isOverdue. rewrite Hd, Hdue. simpl.
  destruct (negb (String.eqb (status task) "done")); [simpl | reflexivity].
  rewrite (TimeClip_in_range now Rn). simpl.
  rewrite (TimeClip_in_range _ Rsn), (TimeClip_in_range _ Rsd). simpl.
  destruct (Z.ltb_spec due (startOfDay now)) as [L | L].
  - apply Z.ltb_lt. specialize (Hle due). lia.
  - apply Z.ltb_ge. apply Hmono in L. rewrite Hidem in L. exact L.
Qed.

End OverdueFacts.

Lemma utc_midnight_monotone (x y : Z) :
  x <= y -> utc_midnight x <= utc_midnight y.
Proof.
  unfold utc_midnight. intros H.
  rewrite (Z.div_mod x 86400000) at 1 by lia.
  rewrite (Z.div_mod y 86400000) at 1 by lia.
  pose proof (Z.div_le_mono x y 86400000 ltac:(lia) H). lia.
Qed.

Lemma utc_midnight_below (x : Z) : utc_midnight x <= x.
Proof.
  unfold utc_midnight. pose proof (Z.mod_pos_bound x 86400000 ltac:(lia)). lia.
Qed.

Lemma utc_midnight_twice (x : Z) : utc_midnight (utc_midnight x) = utc_midnight x.
Proof.
  unfold utc_midnight.
  assert (E : (x - x mod 86400000) mod 86400000 = 0).
  { rewrite Zminus_mod, Z.mod_mod by lia. rewrite Z.sub_diag. reflexivity. }
  rewrite E. lia.
Qed.

(** *** The theme *)

Section ThemeFacts.

Import ThemeManager.

Lemma setTheme_attribute (theme : string) (save : bool) (t : Theme) :
  attribute (setTheme theme save t) = Some LIGHT
  \/ attribute (setTheme theme save t) = Some DARK.
Proof.
  unfold setTheme, is_theme. simpl.
  destruct (String.eqb_spec theme LIGHT) as [-> | N1]; simpl; [auto|].
  destruct (String.eqb_spec theme DARK) as [-> | N2]; simpl; auto.
Qed.

Lemma setTheme_item (theme : string) (save : bool) (t : Theme) :
  item (setTheme theme save t) = item t
  \/ item (setTheme theme save t) = Some LIGHT
  \/ item (setTheme theme save t) = Some DARK.
Proof.
  unfold setTheme, is_theme. simpl.
  destruct (save && negb (storage_throws t)); [right | now left].
  destruct (String.eqb_spec theme LIGHT) as [-> | N1]; simpl; [auto|].
  destruct (String.eqb_spec theme DARK) as [-> | N2]; simpl; auto.
Qed.

Lemma handle_attribute_ok (e : ThemeEvent) (t : Theme) :
  attribute_ok t -> attribute_ok (ThemeManager.handle e t).
Proof.
  intros H. unfold attribute_ok.
  destruct e as [pd | | theme save | m]; cbn [ThemeManager.handle].
  - right. unfold init. apply setTheme_attribute.
  - right. unfold toggleTheme. apply setTheme_attribute.
  - right. apply setTheme_attribute.
  - unfold handleSystemThemeChange. destruct (storage_throws t); [exact H|].
    destruct (item t) as [s|]; [destruct (truthy_string s); [exact H|]|];
      right; apply setTheme_attribute.
Qed.

(** X13.  Whatever theme is asked for and whatever the storage holds,
    [setTheme] sets the attribute of the document to [light] or [dark], and
    what it writes to the storage is [light] or [dark].  [toggleTheme] sets
    the attribute to [dark] when it was [light] and to [light] otherwise,
    and stores what it sets when the storage works.  The start of the page
    sets the attribute to [light] or [dark] and writes nothing to the
    storage; a change of the system theme does the same or nothing.  So
    when the attribute is absent, [light] or [dark], it still is after any
    sequence of theme events. *)
Theorem theme_is_light_or_dark (es : list ThemeEvent) (t : Theme) :
  (attribute_ok t -> attribute_ok (ThemeManager.run es t))
  /\ (forall (theme : string) (save : bool),
        (attribute (setTheme theme save t) = Some LIGHT
         \/ attribute (setTheme theme save t) = Some DARK)
        /\ (item (setTheme theme save t) = item t
            \/ item (setTheme theme save t) = Some LIGHT
            \/ item (setTheme theme save t) = Some DARK))
  /\ (forall prefersDark : bool,
        (attribute (init prefersDark t) = Some LIGHT
         \/ attribute (init prefersDark t) = Some DARK)
        /\ item (init prefersDark t) = item t)
  /\ (attribute t = Some LIGHT -> attribute (toggleTheme t) = Some DARK)
  /\ (attribute t <> Some LIGHT -> attribute (toggleTheme t) = Some LIGHT)
  /\ item (toggleTheme t)
     = (if storage_throws t then item t else attribute (toggleTheme t))
  /\ (forall matches : bool,
        handleSystemThemeChange matches t = t
        \/ ((attribute (handleSystemThemeChange matches t) = Some LIGHT
             \/ attribute (handleSystemThemeChange matches t) = Some DARK)
            /\ item (handleSystemThemeChange matches t) = item t)).
Proof.
  split; [|split; [|split; [|split; [|split; [|split]]]]].
  - assert (G : forall es t, attribute_ok t -> attribute_ok (ThemeManager.run es t)).
    { clear. induction es as [|e es IH]; intros t H; [exact H|].
      simpl. apply IH. now apply handle_attribute_ok. }
    now apply G.
  - intros theme save. split; [apply setTheme_attribute | apply setTheme_item].
  - intros pd. unfold init. split; [apply setTheme_attribute | reflexivity].
  - intros H. unfold toggleTheme. now rewrite H.
  - intros H. unfold toggleTheme. destruct (attribute t) as [current|];
      [|reflexivity].
    destruct (String.eqb_spec current LIGHT) as [-> | N];
      [now contradiction H | reflexivity].
  - unfold toggleTheme, setTheme. simpl. destruct (storage_throws t);
      [reflexivity|]. simpl.
    destruct (attribute t) as [current|]; [|reflexivity].
    now destruct (String.eqb current LIGHT).
  - intros m. unfold handleSystemThemeChange.
    destruct (storage_throws t); [now left|].
    destruct (item t) as [saved|] eqn:I;
      [destruct (truthy_string saved); [now left|]|];
      right; (split; [apply setTheme_attribute | now rewrite <- I]).
Qed.

(** X14.  With a storage that works and the attribute set to [light] or
    [dark]: [toggleTheme] changes the theme to the other one and stores
    it; a second [toggleTheme] gives back the first theme; after a toggle,
    the start of the page sets the stored theme again whatever the system
    prefers, and a change of the system theme changes nothing. *)
Theorem toggled_theme_is_kept (t : Theme) (prefersDark matches : bool) :
  storage_throws t = false ->
  attribute t = Some LIGHT \/ attribute t = Some DARK ->
  attribute (toggleTheme t) <> attribute t
  /\ item (toggleTheme t) = attribute (toggleTheme t)
  /\ attribute (toggleTheme (toggleTheme t)) = attribute t
  /\ init prefersDark (toggleTheme t) = toggleTheme t
  /\ handleSystemThemeChange matches (toggleTheme t) = toggleTheme t.
Proof.
  intros Hs Ha. destruct t as [a i th]. simpl in *. subst th.
  destruct Ha as [-> | ->]; repeat split; try reflexivity; discriminate.
Qed.

End ThemeFacts.

(** *** Dialogs and keys *)

Section PageFacts.

Import Page.

Variable Date_parse : string -> Num.
Variable trim : string -> string.

(** X15.  A task is deleted only through the confirmation: after
    [showDeleteConfirmation] of an id, the confirm button deletes the task
    with that id, as [deleteTask] does, closes the dialog and forgets the
    id, so a second click on it does nothing.  After the cancel button or
    the Escape key the board is as it was and the confirm button does
    nothing. *)
Theorem delete_goes_through_confirmation (p : Page) (i : string) (now later : Z)
        (e : KeyEvent) :
  i <> ""%string ->
  key e = "Escape"%string ->
  let asked := showDeleteConfirmation i p in
  let confirmed := confirmDelete now asked in
  board confirmed = Board.deleteTask i now (board p)
  /\ taskToDelete confirmed = None
  /\ deleteConfirmModal confirmed = false
  /\ confirmDelete later confirmed = confirmed
  /\ board (hideDeleteConfirmation asked) = board p
  /\ confirmDelete later (hideDeleteConfirmation asked) = hideDeleteConfirmation asked
  /\ board (keydown e asked) = board p
  /\ confirmDelete later (keydown e asked) = keydown e asked.
Proof.
  intros Hi He asked confirmed.
  assert (T : truthy_string i = true).
  { unfold truthy_string. now destruct (String.eqb_spec i ""). }
  assert (C : confirmed
              = hideDeleteConfirmation (Page.deleteTask i now asked)).
  { unfold confirmed, confirmDelete, asked. simpl. now rewrite T. }
  assert (K : keydown e asked
              = hideClearBoardConfirmation
                  (hideDeleteConfirmation
                     (closeModal (handleKeyboardShortcuts e asked)))).
  { unfold keydown, onAltT, onEscape. rewrite He. simpl.
    now rewrite andb_false_r. }
  assert (B : board (handleKeyboardShortcuts e asked) = board p).
  { unfold handleKeyboardShortcuts. rewrite He. simpl.
    destruct (targetIsField e); [reflexivity|].
    destruct (modalOverlay p); reflexivity. }
  split; [|split; [|split; [|split; [|split; [|split; [|split]]]]]].
  - rewrite C. unfold Page.deleteTask, Board.deleteTask. simpl.
    destruct (find_task i (tasks (board p))); reflexivity.
  - now rewrite C.
  - now rewrite C.
  - rewrite C. reflexivity.
  - reflexivity.
  - reflexivity.
  - rewrite K. exact B.
  - rewrite K. reflexivity.
Qed.

(** X16.  The Escape key, wherever the focus is, closes the task form, the
    delete confirmation and the clear-board confirmation, forgets the id
    awaiting deletion and unlocks the scrolling; it changes neither the
    board nor the theme.  It closes the list of shortcuts only when the
    key is not typed in a field and neither the task form nor the delete
    confirmation was open. *)
Theorem escape_closes_dialogs (p : Page) (e : KeyEvent) :
  key e = "Escape"%string ->
  let p' := keydown e p in
  modalOverlay p' = false
  /\ deleteConfirmModal p' = false
  /\ clearBoardModal p' = false
  /\ taskToDelete p' = None
  /\ overflowHidden p' = false
  /\ board p' = board p
  /\ theme p' = theme p
  /\ state_theme p' = state_theme p
  /\ keyboardShortcutsModal p'
     = (if targetIsField e || modalOverlay p || deleteConfirmModal p
        then keyboardShortcutsModal p else false).
Proof.
  intros He p'. subst p'. unfold keydown, onAltT, onEscape, handleKeyboardShortcuts.
  rewrite He. simpl. rewrite andb_false_r.
  destruct p as [b td mo dc cb ks ov th sth]. simpl.
  destruct (targetIsField e), mo, dc, ks; simpl; repeat split; reflexivity.
Qed.

Lemma toggle_twice_attribute (t : ThemeManager.Theme) :
  ThemeManager.attribute t = Some ThemeManager.LIGHT
  \/ ThemeManager.attribute t = Some ThemeManager.DARK ->
  ThemeManager.attribute (ThemeManager.toggleTheme (ThemeManager.toggleTheme t))
  = ThemeManager.attribute t.
Proof.
  destruct t as [a i th]. simpl. intros [-> | ->]; reflexivity.
Qed.

(** X17.  For the key T, in either case: outside a text field the key
    alone toggles the theme once, and with Alt it toggles the theme twice,
    the listener for Alt+T and the listener of the shortcuts both running,
    so a theme that is [light] or [dark] is shown again as it was.  In a
    text field the key alone does nothing and with Alt it toggles the
    theme once.  The board and the dialogs are not changed. *)
Theorem key_t_toggles (p : Page) (e : KeyEvent) :
  toLowerCase (key e) = "t"%string ->
  let once := ThemeManager.toggleTheme in
  let p' := keydown e p in
  theme p'
  = (if targetIsField e || activeIsField e then (fun t => t) else once)
      ((if altKey e then once else (fun t => t)) (theme p))
  /\ (targetIsField e = false -> activeIsField e = false -> altKey e = true ->
      ThemeManager.attribute (theme p) = Some ThemeManager.LIGHT
      \/ ThemeManager.attribute (theme p) = Some ThemeManager.DARK ->
      ThemeManager.attribute (theme p') = ThemeManager.attribute (theme p))
  /\ p' = set_theme p (theme p').
Proof.
  intros Hk once p'.
  assert (K : forall k : string,
             toLowerCase k = "t"%string ->
             String.eqb k "Escape" = false /\ String.eqb k "?" = false
             /\ String.eqb k "/" = false /\ String.eqb (toLowerCase k) "n" = false).
  { intros k H. repeat split;
      try (destruct (String.eqb_spec k "Escape") as [-> | _]; [discriminate | reflexivity]);
      try (destruct (String.eqb_spec k "?") as [-> | _]; [discriminate | reflexivity]);
      try (destruct (String.eqb_spec k "/") as [-> | _]; [discriminate | reflexivity]).
    now rewrite H. }
  destruct (K (key e) Hk) as [K1 [K2 [K3 K4]]].
  assert (E : theme p'
              = (if targetIsField e || activeIsField e then (fun t => t) else once)
                  ((if altKey e then once else (fun t => t)) (theme p))
              /\ p' = set_theme p (theme p')).
  { subst p'. unfold keydown, onEscape, handleKeyboardShortcuts, onAltT.
    rewrite Hk. simpl. rewrite K1, K2, K3.
    destruct p as [b td mo dc cb ks ov th sth].
    destruct (altKey e), (targetIsField e), (activeIsField e); simpl; auto. }
  destruct E as [E1 E2]. split; [exact E1|]. split; [|exact E2].
  intros Ht Ha Hal Hth. rewrite E1, Ht, Ha, Hal. simpl.
  now apply toggle_twice_attribute.
Qed.

(** X18.  A key typed in a text field triggers no shortcut: unless it is
    Escape, or T with Alt, the page is left as it is. *)
Theorem typing_triggers_no_shortcut (p : Page) (e : KeyEvent) :
  targetIsField e = true ->
  key e <> "Escape"%string ->
  altKey e = false \/ toLowerCase (key e) <> "t"%string ->
  keydown e p = p.
Proof.
  intros Ht Hk Ha. unfold keydown, onEscape, handleKeyboardShortcuts, onAltT.
  assert (A : altKey e && String.eqb (toLowerCase (key e)) "t" = false).
  { destruct Ha as [-> | Ha]; [reflexivity|].
    apply String.eqb_neq in Ha. rewrite Ha. apply andb_false_r. }
  rewrite A, Ht. apply String.eqb_neq in Hk. now rewrite Hk.
Qed.

Lemma keydown_state_theme (e : KeyEvent) (p : Page) :
  state_theme (keydown e p) = state_theme p.
Proof.
  unfold keydown, onEscape, handleKeyboardShortcuts, onAltT.
  destruct (altKey e && _), (String.eqb (key e) "Escape"), (targetIsField e);
    simpl; try reflexivity;
    repeat match goal with
           | |- context [if ?b then _ else _] => destruct b; simpl
           end; reflexivity.
Qed.

Lemma handle_state_theme (e : PageEvent) (p : Page) :
  state_theme (Page.handle Date_parse trim e p) = state_theme p.
Proof.
  destruct e as [be | ke | | | i | now | | | | | | te]; simpl;
    try reflexivity.
  - destruct be; simpl; try reflexivity.
    unfold Page.deleteTask. destruct (find_task _ _); reflexivity.
  - apply keydown_state_theme.
  - unfold confirmDelete. destruct (taskToDelete p) as [i|]; [|reflexivity].
    destruct (truthy_string i); [|reflexivity]. unfold Page.deleteTask.
    destruct (find_task _ _); reflexivity.
Qed.

(** X19.  The theme that [exportBoard] writes is the one that [state] read
    from the storage when the script was loaded: no event changes it.  So
    after a toggle of the theme on a page that started with a stored theme,
    the exported theme is not the theme on screen.  The exported tasks are
    the tasks of the store, in store order, whatever the filters. *)
Theorem export_theme_is_from_load (es : list PageEvent) (prefersDark : bool)
        (t : ThemeManager.Theme) (exportedAt : string) :
  let p := Page.run Date_parse trim es (start prefersDark t) in
  export_theme (exportBoard exportedAt p) = ThemeManager.theme_at_load t
  /\ export_tasks (exportBoard exportedAt p) = tasks (board p)
  /\ (ThemeManager.storage_throws t = false ->
      ThemeManager.item t = Some ThemeManager.LIGHT
      \/ ThemeManager.item t = Some ThemeManager.DARK ->
      let toggled :=
        Page.run Date_parse trim [OnTheme ThemeManager.Toggle] (start prefersDark t) in
      ThemeManager.getCurrentTheme (theme toggled)
      <> export_theme (exportBoard exportedAt toggled)).
Proof.
  intros p. split; [|split; [reflexivity|]].
  - unfold exportBoard. simpl. subst p.
    assert (G : forall es q, state_theme (Page.run Date_parse trim es q) = state_theme q).
    { clear. induction es as [|e es IH]; intros q; [reflexivity|].
      simpl. rewrite IH. apply handle_state_theme. }
    now rewrite G.
  - intros Hs Hi. destruct t as [a i th]. simpl in *. subst th.
    destruct Hi as [-> | ->]; simpl; discriminate.
Qed.

End PageFacts.

(** *** Instances of the further properties *)

Section MoreInstances.

Import Examples Samples Card Page.

Lemma well_dated_examples :
  Forall (well_dated unparsed) [june; undated; january].
Proof.
  repeat constructor; unfold well_dated; simpl; intros H;
    try discriminate; eexists; reflexivity.
Defined.

(** Two dated tasks and an undated one, sorted both ways. *)
Lemma sortTasksByDueDate_orders_witness :
  Forall (well_dated unparsed) [june; undated; january]
  /\ sortTasksByDueDate unparsed [june; undated; january] "asc"
     = [january; june; undated]
  /\ StronglySorted (ascending unparsed)
                    (sortTasksByDueDate unparsed [june; undated; january] "asc")
  /\ StronglySorted (descending unparsed)
                    (sortTasksByDueDate unparsed [june; undated; january] "desc").
Proof.
  split; [exact well_dated_examples|]. split; [reflexivity|].
  destruct (sortTasksByDueDate_orders unparsed [june; undated; january]
              well_dated_examples) as [_ [_ [Sa [_ [Sd _]]]]].
  split; [exact Sa | exact Sd].
Defined.

(** The query [Rep] is typed further to [Report] on a board of two
    tasks. *)
Lemma longer_query_narrows_witness :
  folds_ascii toLowerCase
  /\ is_ascii ("" ++ "Rep" ++ "ort") = true
  /\ columnTasks unparsed toLowerCase (set_filterQuery two_tasks "Report") Todo
     = filter (matchesSearch toLowerCase (set_filterQuery two_tasks "Report"))
              (columnTasks unparsed toLowerCase (set_filterQuery two_tasks "Rep") Todo).
Proof.
  assert (H1 : folds_ascii toLowerCase) by (intros s _; reflexivity).
  assert (H2 : is_ascii ("" ++ "Rep" ++ "ort") = true) by reflexivity.
  split; [exact H1|]. split; [exact H2|].
  exact (proj1 (longer_query_narrows unparsed toLowerCase H1 two_tasks
                  "" "Rep" "ort" Todo H2)).
Defined.

(** [trim] leaves no white space at the ends of a text, as the built-in
    does. *)
Lemma trim_trims_white : trims_white trim.
Proof. intros s. apply trim_no_outer_white. Defined.

(** A form without an id on a board of two tasks. *)
Lemma form_creates_task_witness :
  trims_white trim
  /\ form_dataset_id form_example = ""%string
  /\ ~ In (Number_toString 1700000000002) (map id (tasks two_tasks))
  /\ exists created : Task,
       tasks (handleFormSubmit unparsed trim form_example [] 1700000000002
                               1700000000003 1700000000004 two_tasks)
       = [june; january; created]
       /\ title created = "Essay"%string
       /\ no_outer_white (title created).
Proof.
  assert (H1 : form_dataset_id form_example = ""%string) by reflexivity.
  assert (H2 : ~ In (Number_toString 1700000000002) (map id (tasks two_tasks))).
  { vm_compute. intuition discriminate. }
  split; [exact trim_trims_white|]. split; [exact H1|]. split; [exact H2|].
  destruct (form_creates_task unparsed trim two_tasks form_example []
              1700000000002 1700000000003 1700000000004
              trim_trims_white H1 H2)
    as [created [E [_ [_ [_ [W [_ [T _]]]]]]]].
  exists created. split; [exact E|]. split; [|exact W].
  apply T. discriminate.
Defined.

(** A form for the task with id 2, left without subtasks. *)
Lemma form_edits_task_witness :
  form_dataset_id edit_form <> ""%string
  /\ find_task (form_dataset_id edit_form) (tasks two_tasks) = Some january
  /\ exists edited : Task,
       tasks (handleFormSubmit unparsed trim edit_form [] 5 6 7 two_tasks)
       = [june; edited]
       /\ status edited = "done"%string
       /\ createdAt edited = createdAt january
       /\ subtasks edited = subtasks january.
Proof.
  assert (H1 : form_dataset_id edit_form <> ""%string) by discriminate.
  assert (H2 : find_task (form_dataset_id edit_form) (tasks two_tasks) = Some january)
    by reflexivity.
  split; [exact H1|]. split; [exact H2|].
  destruct (form_edits_task unparsed trim two_tasks edit_form [] 5 6 7 january H1 H2)
    as [before [after [edited [E1 [E2 [_ [_ [_ [C [_ [_ [_ [S [_ [_ [K _]]]]]]]]]]]]]]]].
  exists edited.
  assert (B : before = [june] /\ after = []).
  { destruct before as [|x [|y before]]; simpl in E1; inversion E1; auto.
    destruct before; discriminate. }
  destruct B as [-> ->].
  split; [exact E2|]. split; [exact S|]. split; [exact C | now apply K].
Defined.

(** A picture dropped while no task is edited. *)
Lemma file_drop_creates_task_witness :
  (@None string = None \/ @None string = Some ""%string)
  /\ exists created : Task,
       tasks (handleFileDrop None [picture] 8 9 two_tasks) = [june; january; created]
       /\ title created = "holiday"%string
       /\ status created = "todo"%string
       /\ map file_url (files created) = ["blob:1"%string].
Proof.
  assert (H : @None string = None \/ @None string = Some ""%string) by now left.
  split; [exact H|].
  destruct (file_drop_creates_task unparsed toLowerCase two_tasks None picture [] 8 9 H)
    as [_ [created [E [_ [_ [T [S [_ [F _]]]]]]]]].
  exists created. split; [exact E|]. split; [exact T|]. split; [exact S|].
  now rewrite F.
Defined.

(** A picture with two extensions, the last one in upper case. *)
Lemma getFileIcon_by_extension_witness :
  occurrences "." "PNG" = O
  /\ getFileIcon "holiday.final.PNG" = Own "fa-file-image"
  /\ getFileIcon "holiday.final.PNG" = getFileIcon "PNG".
Proof.
  assert (H : occurrences "." "PNG" = O) by reflexivity.
  split; [exact H|]. split.
  - destruct (getFileIcon_by_extension "holiday.final" "PNG" H)
      as [_ [_ [_ [T _]]]].
    apply (T "png"%string "fa-file-image"%string); [|reflexivity].
    simpl. auto.
  - exact (proj1 (getFileIcon_by_extension "holiday.final" "PNG" H)).
Defined.

(** At noon of 2024-06-01, in a time zone without offset: the task due at
    the start of that day is not overdue, the task due in January is. *)
Lemma overdue_before_today_witness :
  Z.abs noon_june_first <= max_time
  /\ Z.abs (utc_midnight noon_june_first) <= max_time
  /\ isOverdue unparsed utc_midnight noon_june_first june = false
  /\ isOverdue unparsed utc_midnight noon_june_first january = true.
Proof.
  assert (R1 : Z.abs noon_june_first <= max_time) by (apply Z.leb_le; reflexivity).
  assert (R2 : Z.abs (utc_midnight noon_june_first) <= max_time)
    by (apply Z.leb_le; reflexivity).
  split; [exact R1|]. split; [exact R2|]. split.
  - destruct (overdue_before_today unparsed utc_midnight noon_june_first june
                utc_midnight_monotone utc_midnight_below utc_midnight_twice R1 R2)
      as [_ [_ [_ V]]].
    rewrite (V 1717200000000 eq_refl eq_refl); [reflexivity|].
    apply Z.leb_le. reflexivity.
  - destruct (overdue_before_today unparsed utc_midnight noon_june_first january
                utc_midnight_monotone utc_midnight_below utc_midnight_twice R1 R2)
      as [_ [_ [_ V]]].
    rewrite (V 1704067200000 eq_refl eq_refl); [reflexivity|].
    apply Z.leb_le. reflexivity.
Defined.

(** A page start, a toggle and an unknown theme, from a stored light
    theme. *)
Lemma theme_is_light_or_dark_witness :
  attribute_ok stored_light
  /\ attribute_ok
       (ThemeManager.run
          [ThemeManager.Init true; ThemeManager.Toggle;
           ThemeManager.SetTheme "blue" true]
          stored_light)
  /\ ThemeManager.attribute (ThemeManager.toggleTheme stored_light)
     = Some ThemeManager.DARK.
Proof.
  assert (H : attribute_ok stored_light) by (right; left; reflexivity).
  split; [exact H|].
  destruct (theme_is_light_or_dark
              [ThemeManager.Init true; ThemeManager.Toggle;
               ThemeManager.SetTheme "blue" true] stored_light)
    as [R [_ [_ [T _]]]].
  split; [exact (R H) | exact (T eq_refl)].
Defined.

Lemma toggled_theme_is_kept_witness :
  ThemeManager.storage_throws stored_light = false
  /\ ThemeManager.attribute (ThemeManager.toggleTheme stored_light) = Some "dark"%string
  /\ ThemeManager.init false (ThemeManager.toggleTheme stored_light)
     = ThemeManager.toggleTheme stored_light.
Proof.
  assert (H1 : ThemeManager.storage_throws stored_light = false) by reflexivity.
  assert (H2 : ThemeManager.attribute stored_light = Some ThemeManager.LIGHT
               \/ ThemeManager.attribute stored_light = Some ThemeManager.DARK)
    by (left; reflexivity).
  split; [exact H1|]. split; [reflexivity|].
  destruct (toggled_theme_is_kept stored_light false true H1 H2) as [_ [_ [_ [I _]]]].
  exact I.
Defined.

(** The June task is asked to be deleted, then confirmed. *)
Lemma delete_goes_through_confirmation_witness :
  "1"%string <> ""%string
  /\ key escape_in_field = "Escape"%string
  /\ tasks (board (confirmDelete 5 (showDeleteConfirmation "1" light_page))) = [january]
  /\ tasks (board (keydown escape_in_field (showDeleteConfirmation "1" light_page)))
     = [june; january].
Proof.
  assert (H1 : "1"%string <> ""%string) by discriminate.
  assert (H2 : key escape_in_field = "Escape"%string) by reflexivity.
  split; [exact H1|]. split; [exact H2|].
  destruct (delete_goes_through_confirmation light_page "1" 5 6 escape_in_field H1 H2)
    as [B [_ [_ [_ [_ [_ [K _]]]]]]].
  split; [now rewrite B | now rewrite K].
Defined.

(** Escape typed in a field while the task form, the clear confirmation
    and the list of shortcuts are open. *)
Lemma escape_closes_dialogs_witness :
  key escape_in_field = "Escape"%string
  /\ modalOverlay (keydown escape_in_field light_page) = false
  /\ clearBoardModal (keydown escape_in_field light_page) = false
  /\ keyboardShortcutsModal (keydown escape_in_field light_page) = true.
Proof.
  assert (H : key escape_in_field = "Escape"%string) by reflexivity.
  split; [exact H|].
  destruct (escape_closes_dialogs light_page escape_in_field H)
    as [M [_ [C [_ [_ [_ [_ [_ K]]]]]]]].
  split; [exact M|]. split; [exact C | exact K].
Defined.

(** Alt+T outside a field on a light page. *)
Lemma key_t_toggles_witness :
  toLowerCase (key alt_t) = "t"%string
  /\ ThemeManager.attribute (theme (keydown alt_t light_page)) = Some "light"%string.
Proof.
  assert (H : toLowerCase (key alt_t) = "t"%string) by reflexivity.
  split; [exact H|].
  destruct (key_t_toggles light_page alt_t H) as [_ [A _]].
  exact (A eq_refl eq_refl eq_refl (or_introl eq_refl)).
Defined.

(** The letter N typed in a field. *)
Lemma typing_triggers_no_shortcut_witness :
  targetIsField n_in_field = true
  /\ key n_in_field <> "Escape"%string
  /\ keydown n_in_field light_page = light_page.
Proof.
  assert (H1 : targetIsField n_in_field = true) by reflexivity.
  assert (H2 : key n_in_field <> "Escape"%string) by discriminate.
  split; [exact H1|]. split; [exact H2|].
  exact (typing_triggers_no_shortcut light_page n_in_field H1 H2 (or_introl eq_refl)).
Defined.

End MoreInstances.

(** *** Cards after a drop and after a duplication *)




Section Moves.

Variable Date_parse : string -> Num.
Variable toLowerCase : string -> string.





End Moves.

Section MoveInstances.

Import Examples.




End MoveInstances.

End MoreFacts.
